(* ===== verification/_CoqProject ===== *)
-Q . S2P
Prelude.v
JsRegex.v
Feedback.v
DateCheck.v
Validators.v
Presenter.v
FormData.v
Forms.v
NavMenu.v
PhoneFormat.v
DateInput.v
Observers.v
Links.v
Video.v
ServiceWorker.v
