(* ===== verification/Prelude.v ===== *)
(** * A verification development of the MGIC site script ([src/script.js])

    ** The program

    [src/script.js] enhances a static marketing page.  Every part is a DOM
    event handler registered on [DOMContentLoaded]; the parts share no
    state except the document.  The core is the form flow: a submit event
    reads the form ([new FormData], [Object.fromEntries]), a validator
    ([validateAppointmentForm], [validateContactForm], with [isValidEmail]
    and [isValidPhone]) reports the first failing check through
    [showErrorMessage], or the handler shows a success message and resets
    the form.  [showMessage] keeps at most one popup on the page, gives it a
    close button, and removes it after 5000 ms.  Around this flow sit the
    navigation toggle with its ARIA attribute, the phone input formatter, a
    date [min] attribute, intersection observers, a video tweak, smooth
    scrolling, a skip link and a service-worker registration.

    ** Files, in dependency order

    - [Prelude] (this file): JS strings as lists of UTF-16 code units
      ([jsstr], literals [⟪ "..." ⟫]); [String.prototype.trim] ([trim], with
      the ECMAScript WhiteSpace and LineTerminator units [is_js_space]);
      [replace(/\D/g, '')] ([strip_nondigits]); ASCII [toLowerCase]; JS
      truthiness of an optional value; the hint databases [js] and [js_rw],
      the tactics [js_bool] and [invc], and the list lemmas the components
      share.
    - [JsRegex] (Module [RegExp]): regular expressions with character
      classes, the inductive language [matches], and [test], the
      Brzozowski-derivative matcher used for [RegExp.prototype.test] on the
      source's anchored, capture-free patterns; [test_spec] proves the
      matcher equal to the semantics.
    - [Feedback]: the interface between validators and presenter.  The
      class [Notifier] is [showMessage(message, type)]; [NotifierSpec] is
      the presenter's promise (the message shown last is the one
      displayed); [ST] is the state monad the validators run in.
    - [DateCheck]: lines 103-111.  [Date_parse] is [new Date(s)]: the
      ECMAScript Date Time String Format ([parse_date_time]: date-only
      forms at UTC midnight, date-time forms in their offset or in local
      time), else the engine's own parser [fallback] of the environment
      [env]; [None] is NaN.  [today] is local midnight of [new Date()] for
      a clock and a fixed time-zone offset, [is_past_date] is
      [selectedDate < today].
    - [Validators]: lines 80-152, against any [Notifier].  The pure
      contract [validate_appointment] / [validate_contact] (spec section
      4.1) returns the first failing [reason]; the refinement theorems show
      the stateful validators display exactly that reason's message.
    - [Presenter]: lines 154-236.  The document record [doc] (attached
      popups in order, style elements, element identities, pending timers,
      clock), the operations [showMessage], [close_click], [timer_callback],
      and the event loop [step]; instances of [Notifier]/[NotifierSpec].
    - [FormData]: [new FormData(form)], [Object.fromEntries] and
      [form.reset()] on a list of controls (lines 40-41, 52, 63-64, 75).
    - [Forms]: the submit handlers (lines 32-78), proved against
      [NotifierSpec] and then connected to [Presenter]'s event loop.
    - [NavMenu]: lines 1-29 and 338-349, the click listeners of the
      hamburger, the nav links and the document, and the [aria-expanded]
      toggle, composed in bubbling order.
    - [PhoneFormat]: lines 320-334, the [input] listener of phone fields.
    - [DateInput]: lines 309-318, the [min] attribute of the date input:
      [civil_from_days] (inverse of [DateCheck.days_from_civil]),
      [toISOString().split('T')[0]] as [iso_date], and the attribute's day
      [min_day] for a clock and offset.
    - [Observers]: lines 258-279 and 386-405.  The section [Observer] is an
      [IntersectionObserver] for any effect: the elements, the observed
      set, the log of effects, the callback over one batch of entries
      ([callback], [handle_entry], with [unobserve]) and the event relations
      [step] (any deliverable batch) and [wf_step] (batches naming each
      target at most once).  [load_image]/[lazy_init] and
      [add_fade_in]/[fade_init] are the two instances.
    - [Links]: lines 238-256, 351-384 and 407-410.  The body as a list of
      elements in tree order; [querySelector_id] ([document.querySelector]
      on ["#" ++ name]); the smooth-scroll listener [smooth_click] and the
      browser's own fragment navigation [default_nav]; [dom_ready], the
      smooth-scroll and accessibility handlers in registration order
      (listeners on the links present, then the skip link and the
      [main-content] id); the window [error] listener [on_error].
    - [Video]: lines 281-305, the blur filter from the load width and the
      [resize] listener.
    - [ServiceWorker]: lines 412-423, the feature test, the [load]
      listener and the console line for each outcome of [register].

    ** What the theorems show (ids as in PROJECT.json)

    - Refinement: the validators implement their contract for every
      presenter (C1, C2); each submission shows the contract's outcome,
      resets the form exactly on success (C8, C9) and is one event-loop
      step (C20).
    - Validation: the first missing field in declared order is reported
      (C4, C23); the email pattern equals a direct reading of it (C5);
      the date check accepts today at or east of UTC but rejects it west
      of UTC (C10) and lets through every date the engine reads as NaN
      (C17); the contact label has a double space (C14); the phone check
      counts digits and accepts what the declared [phoneRegex] rejects
      (C15); consent is given exactly by a checked box with a non-empty
      value, as [FormData] reads it (C18).
    - Presenter: at most one popup in every reachable document (C3), no
      popup older than 5000 ms (C6), idempotent dismissal in either order
      of close click and timer (C7), no dismissed popup comes back (C12),
      every popup goes away by itself, through timer steps only, within
      5000 ms (C13), the idle event loop [run_timers] ends after one round
      per pending timer (C11), replacement instead of stacking (C16), one
      animation style element (C19).
    - Navigation: the two [active] classes agree (C26), [aria-expanded] is
      the parity of all hamburger clicks (C25) while the menu is open
      exactly after an odd number of them since the last closing click
      (C24), so the two disagree once a close follows an odd count.
    - Phone formatter: digits and the [isValidPhone] verdict are preserved
      (C28), six to nine digits stay
      unformatted (C30), the space after the area code cannot be deleted
      (C31).
    - Date minimum: the offered minimum is never refused by the date check
      (C32); west of UTC in the evening the minimum skips tomorrow (C34),
      east of UTC in the morning it is today (C35); it is always within two
      days of the local date, and exactly tomorrow at UTC while the
      validator accepts today (C36).
    - Video: the blur follows the last window width (C29).
    - Observers: each effect runs at most once when batches name a target
      once (C37); lazy images show their original [data-src] (C38), but a
      batch with two intersecting entries for one image sets [src] to
      ["undefined"] (C39); images without [data-src] are never touched
      (C33); the fade-in observer is right for every batch,
      duplicates included (C40).
    - Links: the smooth-scroll listener is characterised on every
      [#name] link (C21); on [#] and on ids starting with a digit it throws
      and kills a link the browser would have followed (C22); the skip
      link, created after the listeners were attached, jumps to the main
      content while the markup's links scroll smoothly (C27).

    ** Bounds and assumptions

    One definition uses fuel: [Presenter.run_timers], the event loop with
    no user input, which runs at most [fuel] timer callbacks.  As many
    rounds as there are pending timers are enough (C11): each round takes
    one timer off the queue and a callback never schedules a timer.  Every
    other recursion is structural, and the event loop with user input is a
    relation whose reachable states are characterised by an invariant
    ([Presenter.inv]).  Times are [Z] milliseconds; the only
    constant is the 5000 ms delay of line 235.  Time never passes a pending
    timer's due time in [step] (timers run on time, in scheduling order),
    which is what makes the 5000 ms bound of C6 hold.  The time-zone offset
    is fixed (no daylight-saving change between [now] and midnight).
    [new Date(s)] follows the standard Date Time String Format for the
    four-digit years (expanded [+YYYYYY] years go to the engine's parser);
    every other string, and a string of the format with out-of-range
    fields, is handed to the engine's implementation-specific parser,
    which the theorems leave arbitrary.
    [toLowerCase] is modelled on ASCII letters, which is all it meets (the
    constant field names).  Lookups [data[field]] use the object's own
    properties; none of the field names is an [Object.prototype] member.

    ** Not modelled yet, and why

    The intersection geometry (threshold, rootMargin) is abstracted into
    which entries of a batch are intersecting.  [toISOString] is modelled
    for the years 0000-9999 it prints with four digits (C32 assumes it).
    The [if (appointmentForm)] and [if (contactForm)] guards (lines 35,
    58) only decide whether a submit listener exists; the model takes both
    forms present.
    [querySelector] is modelled on hrefs ["#" ++ name] with [name] of CSS
    name units; escapes, combinators and [%]-encoding are outside the model
    ([querySelector_id] is [None] there).  [default_nav] follows the HTML
    standard's fragment navigation without [name] attributes; it is the
    browser, not code of the repository.  The smooth scrolling itself and
    every style but the skip link's [top] and
    the video's [filter] are not modelled.  The service worker's
    registration is the browser's; only its outcome enters the model.  The
    CSS text and markup that [showMessage] writes are not modelled.  Console
    output is modelled only where it records a fault: the window [error]
    listener ([Links.on_error]) and the rejected [play()] ([Video]). *)

From stdpp Require Import base list gmap strings.
From Stdlib Require Import NArith ZArith Lia.
From Stdlib Require String.
Export String.StringSyntax.

(** ** JavaScript strings as lists of UTF-16 code units *)

Abbreviation jsstr := (list N).

(** A Rocq string literal read as the JS string of the same (Latin-1)
    code units. *)
Definition js (s : string) : jsstr :=
  map Ascii.N_of_ascii (String.list_ascii_of_string s).

Declare Scope js_scope.
Delimit Scope js_scope with js.
Notation "⟪ s ⟫" := (js s%string) (format "⟪ s ⟫") : js_scope.
Open Scope js_scope.

(** The code units that ECMAScript counts as WhiteSpace or
    LineTerminator: the set removed by [trim] and matched by [\s]. *)
Definition js_space_units : list N :=
  [9; 10; 11; 12; 13; 32; 160; 5760; 8232; 8233; 8239; 8287; 12288; 65279]%N.

Definition is_js_space (c : N) : bool :=
  existsb (N.eqb c) js_space_units || ((8192 <=? c)%N && (c <=? 8202)%N).

(** [\d]: the ASCII digits only. *)
Definition is_digit (c : N) : bool := (48 <=? c)%N && (c <=? 57)%N.

Definition is_upper (c : N) : bool := (65 <=? c)%N && (c <=? 90)%N.

(** [String.prototype.trim]: remove leading and trailing white space. *)
Fixpoint trim_start (s : jsstr) : jsstr :=
  match s with
  | [] => []
  | c :: s' => if is_js_space c then trim_start s' else s
  end.

Definition trim_end (s : jsstr) : jsstr := rev (trim_start (rev s)).

Definition trim (s : jsstr) : jsstr := trim_end (trim_start s).

(** [s.replace(/\D/g, '')]: keep the digits. *)
Fixpoint strip_nondigits (s : jsstr) : jsstr :=
  match s with
  | [] => []
  | c :: s' => if is_digit c then c :: strip_nondigits s' else strip_nondigits s'
  end.

(** [String.prototype.toLowerCase] on the ASCII letters. *)
Definition to_lower_unit (c : N) : N := if is_upper c then (c + 32)%N else c.

Definition toLowerCase (s : jsstr) : jsstr := map to_lower_unit s.

(** JS truthiness of an optional string value ([undefined] or a string). *)
Definition truthy (v : option jsstr) : bool :=
  match v with Some (_ :: _) => true | _ => false end.

(** ** Shared automation *)

Create HintDb js discriminated.
Create Rewrite HintDb js_rw.

(** Turn the boolean tests of the model into propositions. *)
Ltac js_bool :=
  repeat match goal with
  | H : (_ && _) = true |- _ => apply andb_prop in H as [? ?]
  | H : (_ || _) = false |- _ => apply orb_false_elim in H as [? ?]
  | H : (_ <=? _)%N = true |- _ => apply N.leb_le in H
  | H : (_ <=? _)%N = false |- _ => apply N.leb_gt in H
  | H : (_ =? _)%N = true |- _ => apply N.eqb_eq in H
  | H : negb _ = true |- _ => apply negb_true_iff in H
  | H : negb _ = false |- _ => apply negb_false_iff in H
  end.

(** Invert a hypothesis and clean up. *)
Ltac invc H := inversion H; subst; clear H.

(** ** Generic lemmas on the string model *)

Lemma Forall_rev_iff {A} (P : A → Prop) (l : list A) :
  Forall P (rev l) ↔ Forall P l.
Proof.
  split; intros H; [rewrite <- (rev_involutive l)|]; by apply Forall_rev.
Qed.

Lemma trim_start_nil_iff (s : jsstr) :
  trim_start s = [] ↔ Forall (λ c, is_js_space c = true) s.
Proof.
  induction s as [|c s IH]; simpl; [split; auto|].
  destruct (is_js_space c) eqn:E.
  - rewrite IH, Forall_cons. naive_solver.
  - split; [discriminate|]. intros Hf. inversion Hf; congruence.
Qed.

Lemma trim_start_Forall (P : N → Prop) (s : jsstr) :
  (∀ c, is_js_space c = true → P c) →
  Forall P (trim_start s) ↔ Forall P s.
Proof.
  intros HP. induction s as [|c s IH]; simpl; [done|].
  destruct (is_js_space c) eqn:E; [|done].
  rewrite IH, Forall_cons. naive_solver.
Qed.

Lemma trim_end_nil_iff (s : jsstr) :
  trim_end s = [] ↔ Forall (λ c, is_js_space c = true) s.
Proof.
  unfold trim_end. rewrite <- Forall_rev_iff, <- trim_start_nil_iff.
  destruct (trim_start (rev s)) as [|c l]; simpl; split; intros H; try done.
  apply app_eq_nil in H as [_ H]. discriminate.
Qed.

Lemma trim_nil_iff (s : jsstr) :
  trim s = [] ↔ Forall (λ c, is_js_space c = true) s.
Proof.
  unfold trim. rewrite trim_end_nil_iff. apply trim_start_Forall. done.
Qed.

Lemma forallb_Forall_iff {A} (f : A → bool) (l : list A) :
  forallb f l = true ↔ Forall (λ x, f x = true) l.
Proof. induction l as [|x l IH]; simpl; [split; auto|]. by rewrite andb_true_iff, IH, Forall_cons. Qed.

Lemma existsb_eqb_iff (c : N) (l : jsstr) : existsb (N.eqb c) l = true ↔ c ∈ l.
Proof.
  induction l as [|d l IH]; simpl; [split; [done|intros H; inversion H]|].
  rewrite orb_true_iff, IH, N.eqb_eq, elem_of_cons. naive_solver.
Qed.

Lemma strip_nondigits_app (s t : jsstr) :
  strip_nondigits (s ++ t) = strip_nondigits s ++ strip_nondigits t.
Proof. induction s as [|c s IH]; simpl; [done|]. destruct (is_digit c); simpl; congruence. Qed.

Lemma strip_nondigits_all_digits (s : jsstr) :
  Forall (λ c, is_digit c = true) (strip_nondigits s).
Proof. induction s as [|c s IH]; simpl; [done|]. destruct (is_digit c) eqn:E; auto. Qed.

Lemma strip_nondigits_id (s : jsstr) :
  Forall (λ c, is_digit c = true) s → strip_nondigits s = s.
Proof. induction 1 as [|c s Hc _ IH]; simpl; [done|]. by rewrite Hc, IH. Qed.

Lemma strip_nondigits_idem (s : jsstr) :
  strip_nondigits (strip_nondigits s) = strip_nondigits s.
Proof. apply strip_nondigits_id, strip_nondigits_all_digits. Qed.

#[export] Hint Rewrite strip_nondigits_app strip_nondigits_idem @forallb_Forall_iff existsb_eqb_iff : js_rw.
#[export] Hint Resolve strip_nondigits_all_digits : js.
