(* ===== verification/JsRegex.v ===== *)
(** * Regular expressions of the script

    The source tests strings against anchored patterns with no flags:
    [/^[^\s@]+@[^\s@]+\.[^\s@]+$/.test(email)] in [isValidEmail] and the
    (unused) [/^[\+]?[1-9][\d]{0,15}$/] of [isValidPhone].  Such patterns use
    no captures, look-arounds or back-references, so [RegExp.prototype.test]
    on them answers whether the whole input is in the pattern's language.
    This file gives that language as an inductive relation [matches] and the
    executable test [test] by Brzozowski derivatives, and proves the two
    agree ([test_spec]).  Character classes are boolean predicates on code
    units, so [[^\s@]], [\d] and literal characters are all [RClass]. *)

From stdpp Require Import base list.
From Stdlib Require Import NArith Lia.
From S2P Require Import Prelude.

Module RegExp.

Inductive regex : Type :=
| RNone
| REps
| RClass (p : N → bool)
| RCat (r1 r2 : regex)
| RAlt (r1 r2 : regex)
| RStar (r : regex).

(** A literal character, [r+], [r?] and [r{0,n}]. *)
Definition RChar (c : N) : regex := RClass (N.eqb c).
Definition RPlus (r : regex) : regex := RCat r (RStar r).
Definition ROpt (r : regex) : regex := RAlt REps r.
Fixpoint RUpTo (n : nat) (r : regex) : regex :=
  match n with O => REps | S n => ROpt (RCat r (RUpTo n r)) end.

Inductive matches : regex → jsstr → Prop :=
| m_eps : matches REps []
| m_class p c : p c = true → matches (RClass p) [c]
| m_cat r1 r2 s1 s2 :
    matches r1 s1 → matches r2 s2 → matches (RCat r1 r2) (s1 ++ s2)
| m_alt_l r1 r2 s : matches r1 s → matches (RAlt r1 r2) s
| m_alt_r r1 r2 s : matches r2 s → matches (RAlt r1 r2) s
| m_star_nil r : matches (RStar r) []
| m_star_cons r s1 s2 :
    matches r s1 → matches (RStar r) s2 → matches (RStar r) (s1 ++ s2).

Fixpoint nullable (r : regex) : bool :=
  match r with
  | RNone | RClass _ => false
  | REps | RStar _ => true
  | RCat r1 r2 => nullable r1 && nullable r2
  | RAlt r1 r2 => nullable r1 || nullable r2
  end.

Fixpoint der (c : N) (r : regex) : regex :=
  match r with
  | RNone | REps => RNone
  | RClass p => if p c then REps else RNone
  | RCat r1 r2 =>
      if nullable r1 then RAlt (RCat (der c r1) r2) (der c r2)
      else RCat (der c r1) r2
  | RAlt r1 r2 => RAlt (der c r1) (der c r2)
  | RStar r1 => RCat (der c r1) (RStar r1)
  end.

Fixpoint matches_b (r : regex) (s : jsstr) : bool :=
  match s with
  | [] => nullable r
  | c :: s' => matches_b (der c r) s'
  end.

(** [/^r$/.test(s)]. *)
Definition test (r : regex) (s : jsstr) : bool := matches_b r s.

#[export] Hint Constructors matches : js.

(** ** The derivative matcher is correct *)

Lemma matches_cat_iff (r1 r2 : regex) (s : jsstr) :
  matches (RCat r1 r2) s ↔
  ∃ s1 s2, s = s1 ++ s2 ∧ matches r1 s1 ∧ matches r2 s2.
Proof.
  split; [intros H; invc H; eauto|intros (s1 & s2 & -> & H1 & H2); auto with js].
Qed.

Lemma matches_class_iff (p : N → bool) (s : jsstr) :
  matches (RClass p) s ↔ ∃ c, s = [c] ∧ p c = true.
Proof. split; [intros H; invc H; eauto|intros (c & -> & Hc); auto with js]. Qed.


Lemma nullable_spec (r : regex) : nullable r = true ↔ matches r [].
Proof.
  split.
  - induction r; simpl; intros H; try discriminate; eauto with js.
    + js_bool. change (@nil N) with (@nil N ++ []). auto with js.
    + apply orb_prop in H as [H|H]; eauto with js.
  - remember [] as s eqn:Es. induction 1; simpl; try done.
    + apply app_eq_nil in Es as [-> ->]. rewrite IHmatches1, IHmatches2; done.
    + rewrite IHmatches; done.
    + rewrite IHmatches, orb_true_r; done.
Qed.

Lemma der_sound (c : N) (r : regex) (s : jsstr) :
  matches (der c r) s → matches r (c :: s).
Proof.
  revert s. induction r; simpl; intros s H; try by invc H.
  - destruct (p c) eqn:E; invc H. auto with js.
  - destruct (nullable r1) eqn:En.
    + invc H.
      * invc H3. apply (m_cat _ _ (c :: s1)); auto.
      * apply (m_cat _ _ [] (c :: s)); [by apply nullable_spec|auto].
    + invc H. apply (m_cat _ _ (c :: s1)); auto.
  - invc H; eauto with js.
  - invc H. apply (m_star_cons _ (c :: s1)); auto.
Qed.

Lemma der_star_complete (c : N) (r : regex) :
  (∀ s, matches r (c :: s) → matches (der c r) s) →
  ∀ w, matches (RStar r) w → ∀ s, w = c :: s →
  matches (RCat (der c r) (RStar r)) s.
Proof.
  intros Hr w H. remember (RStar r) as rr eqn:Er.
  induction H; intros t Et; try discriminate; injection Er as ->.
  destruct s1 as [|c' s1]; simpl in Et.
  - by apply IHmatches2.
  - injection Et as -> <-. auto with js.
Qed.

Lemma der_complete (c : N) (r : regex) (s : jsstr) :
  matches r (c :: s) → matches (der c r) s.
Proof.
  revert s. induction r; simpl; intros s H; try by invc H.
  - apply matches_class_iff in H as (c' & [= -> ->] & Hp). rewrite Hp. constructor.
  - apply matches_cat_iff in H as ([|c' s1] & s2 & Es & H1 & H2); simpl in Es.
    + subst s2. assert (nullable r1 = true) as -> by by apply nullable_spec.
      auto with js.
    + injection Es as -> ->. destruct (nullable r1); auto with js.
  - invc H; auto with js.
  - eapply der_star_complete; eauto.
Qed.

Lemma der_spec (c : N) (r : regex) (s : jsstr) :
  matches (der c r) s ↔ matches r (c :: s).
Proof. split; [apply der_sound|apply der_complete]. Qed.

Theorem test_spec (r : regex) (s : jsstr) : test r s = true ↔ matches r s.
Proof.
  unfold test. revert r. induction s as [|c s IH]; intros r; simpl.
  - apply nullable_spec.
  - by rewrite IH, der_spec.
Qed.

(** ** Inversion lemmas for the building blocks of the source's patterns *)

Lemma matches_star_class_iff (p : N → bool) (s : jsstr) :
  matches (RStar (RClass p)) s ↔ Forall (λ c, p c = true) s.
Proof.
  split.
  - remember (RStar (RClass p)) as rr eqn:Er. induction 1; try discriminate; auto.
    injection Er as ->. apply matches_class_iff in H as (c & -> & Hc).
    constructor; auto.
  - induction 1 as [|c s Hc _ IH]; [constructor|].
    apply (m_star_cons _ [c]); auto with js.
Qed.

Lemma matches_plus_class_iff (p : N → bool) (s : jsstr) :
  matches (RPlus (RClass p)) s ↔ s ≠ [] ∧ Forall (λ c, p c = true) s.
Proof.
  unfold RPlus. rewrite matches_cat_iff. split.
  - intros (s1 & s2 & -> & H1 & H2).
    apply matches_class_iff in H1 as (c & -> & Hc).
    apply matches_star_class_iff in H2. split; [done|]. by constructor.
  - intros [Hne Hf]. destruct s as [|c s]; [done|]. invc Hf.
    exists [c], s. rewrite matches_class_iff, matches_star_class_iff. eauto.
Qed.

#[export] Hint Rewrite matches_cat_iff matches_class_iff matches_plus_class_iff : js_rw.

End RegExp.
