(* ===== verification/Feedback.v ===== *)
(** * The interface between validation and the popup presenter

    The validators of [src/script.js] report a failure by calling
    [showErrorMessage(msg)], and the submit handlers report success with
    [showSuccessMessage(msg)]; both are [showMessage(message, type)]
    (lines 155-161).  The validators are written here against the class
    [Notifier], which states only that operation; [Presenter] implements it
    on the document model, and [NotifierSpec] is the promise it makes to its
    clients: the message shown last is the one on display.  The validators
    run in the state monad [ST] over the notifier's state. *)

From stdpp Require Import base list gmap strings.
From S2P Require Import Prelude.

(** The [type] argument of [showMessage]: ['success'] or ['error']. *)
Inductive msg_kind := Success | Error.

#[export] Instance msg_kind_eq_dec : EqDecision msg_kind.
Proof. solve_decision. Defined.

Class Notifier (S : Type) := showMessage : jsstr → msg_kind → S → S.

(** What a presenter promises its clients: it can say which message is on
    display, and it is the one shown last. *)
Class NotifierSpec (S : Type) `{Notifier S} := {
  displayed : S → option (jsstr * msg_kind);
  displayed_show m k s : displayed (showMessage m k s) = Some (m, k)
}.

Definition showSuccessMessage {St} `{Notifier St} (message : jsstr) (s : St) : St :=
  showMessage message Success s.

Definition showErrorMessage {St} `{Notifier St} (message : jsstr) (s : St) : St :=
  showMessage message Error s.

(** ** A state monad over the notifier's state *)

Definition ST (S A : Type) : Type := S → A * S.

Definition st_ret {S A} (a : A) : ST S A := λ s, (a, s).

Definition st_bind {S A B} (m : ST S A) (f : A → ST S B) : ST S B :=
  λ s, let '(a, s') := m s in f a s'.

Definition st_modify {S} (f : S → S) : ST S unit := λ s, (tt, f s).

Declare Scope st_scope.
Delimit Scope st_scope with st.
Notation "x <- m ;; k" := (st_bind m (λ x, k))
  (at level 100, m at next level, right associativity) : st_scope.
Notation "m ;; k" := (st_bind m (λ _, k))
  (at level 100, right associativity) : st_scope.

(** [showErrorMessage(msg); return false;], the failure exit of every
    check of the validators. *)
Definition fail_with {St} `{Notifier St} (message : jsstr) : ST St bool :=
  (st_modify (showErrorMessage message) ;; st_ret false)%st.

(** The data the submit handlers pass to the validators:
    [Object.fromEntries(new FormData(form))], a map from field names to
    string values. *)
Abbreviation form_object := (gmap jsstr jsstr).

(** ** A reference notifier: the list of messages shown so far *)

#[export] Instance trace_notifier : Notifier (list (jsstr * msg_kind)) :=
  λ m k l, l ++ [(m, k)].

#[export] Instance trace_notifier_spec : NotifierSpec (list (jsstr * msg_kind)) := {
  displayed l := last l;
  displayed_show m k l := last_snoc (m, k) l
}.

Lemma fail_with_run {St} `{Notifier St} (message : jsstr) (s : St) :
  fail_with message s = (false, showErrorMessage message s).
Proof. reflexivity. Qed.
