(* ===== verification/DateCheck.v ===== *)
(** * The date test of [validateAppointmentForm]

    [src/script.js] lines 103-111:
<<
    const selectedDate = new Date(data.preferredDate);
    const today = new Date();
    today.setHours(0, 0, 0, 0);
    if (selectedDate < today) { ...error...; return false; }
>>
    A [Date] is a time value: milliseconds since 1970-01-01T00:00Z, or NaN
    ([None]).  [new Date(s)] ([Date_parse]) first reads [s] in the
    ECMAScript Date Time String Format ([parse_date_time]): a date-only form
    ([YYYY], [YYYY-MM], [YYYY-MM-DD], [parse_date]) is midnight UTC; a
    date-time form ([T] then [HH:mm], [HH:mm:ss] or [HH:mm:ss.sss], then
    [Z], [+HH:mm], [-HH:mm] or nothing) is in the given offset, or in local
    time when it has none.  Any other string goes to the engine's own
    implementation-specific parser, which the environment [env] supplies
    as [fallback] and the theorems quantify over.  [new Date()] reads the
    clock and [setHours(0,0,0,0)] moves to local midnight, which depends on
    the time-zone offset; both come from [env].  The comparison [<] is on
    time values and is false when either side is NaN. *)

From stdpp Require Import base list.
From Stdlib Require Import ZArith Lia.
From S2P Require Import Prelude.

Module DateCheck.

Local Open Scope Z_scope.

Definition msPerDay : Z := 86400000.

(** The ambient clock, time zone and engine: [now_ms] is [Date.now()],
    the local time is [now_ms + tz_offset_ms] (a fixed offset:
    daylight-saving changes are not modelled), and [fallback] is what the
    engine makes of a string outside the Date Time String Format. *)
Record env := mk_env { now_ms : Z; tz_offset_ms : Z; fallback : jsstr → option Z }.

(** An engine that parses nothing outside the standard format. *)
Definition no_fallback : jsstr → option Z := λ _, None.

(** Days from 1970-01-01 to the civil date [y-m-d] (proleptic Gregorian),
    as ECMAScript's MakeDay computes it for [1 <= m <= 12]. *)
Definition days_from_civil (y m d : Z) : Z :=
  let y' := if m <=? 2 then y - 1 else y in
  let era := y' / 400 in
  let yoe := y' - era * 400 in
  let mp := (m + 9) mod 12 in
  let doy := (153 * mp + 2) / 5 + d - 1 in
  let doe := yoe * 365 + yoe / 4 - yoe / 100 + doy in
  era * 146097 + doe - 719468.

(** The value of a string of decimal digits. *)
Definition parse_digits (s : jsstr) : option Z :=
  if forallb is_digit s
  then Some (fold_left (λ acc c, acc * 10 + (Z.of_N c - 48)) s 0)
  else None.

(** [YYYY], [MM] and [DD] fields to a time value: the month must be
    [01]-[12] and the day [01]-[31]; a day past the month's end rolls over,
    as MakeDay does. *)
Definition date_value (ys ms ds : jsstr) : option Z :=
  match parse_digits ys, parse_digits ms, parse_digits ds with
  | Some y, Some m, Some d =>
      if (1 <=? m) && (m <=? 12) && (1 <=? d) && (d <=? 31)
      then Some ((days_from_civil y m 1 + (d - 1)) * msPerDay)
      else None
  | _, _, _ => None
  end.

(** The date-only forms of the Date Time String Format, at midnight UTC. *)
Definition parse_date (s : jsstr) : option Z :=
  match s with
  | [y1; y2; y3; y4] => date_value [y1; y2; y3; y4] ⟪"01"⟫ ⟪"01"⟫
  | [y1; y2; y3; y4; h; m1; m2] =>
      if (h =? 45)%N then date_value [y1; y2; y3; y4] [m1; m2] ⟪"01"⟫ else None
  | [y1; y2; y3; y4; h; m1; m2; h'; d1; d2] =>
      if (h =? 45)%N && (h' =? 45)%N
      then date_value [y1; y2; y3; y4] [m1; m2] [d1; d2] else None
  | _ => None
  end.

(** [:ss] and [.sss] after [HH:mm], each optional: seconds, milliseconds
    and the rest of the string. *)
Definition parse_seconds (rest : jsstr) : option (Z * Z * jsstr) :=
  match rest with
  | c :: s1 :: s2 :: r =>
      if (c =? 58)%N then
        match parse_digits [s1; s2] with
        | Some ss =>
            match r with
            | d :: f1 :: f2 :: f3 :: r' =>
                if (d =? 46)%N then
                  match parse_digits [f1; f2; f3] with Some f => Some (ss, f, r') | None => None end
                else Some (ss, 0, r)
            | _ => Some (ss, 0, r)
            end
        | None => None
        end
      else Some (0, 0, rest)
  | _ => Some (0, 0, rest)
  end.

(** The offset of a date-time form, in ms: [Z], [+HH:mm], [-HH:mm], or
    none ([Some None]): local time. *)
Definition parse_zone (z : jsstr) : option (option Z) :=
  match z with
  | [] => Some None
  | [c] => if (c =? 90)%N then Some (Some 0) else None
  | [sgn; h1; h2; c; m1; m2] =>
      if ((sgn =? 43)%N || (sgn =? 45)%N) && (c =? 58)%N then
        match parse_digits [h1; h2], parse_digits [m1; m2] with
        | Some hh, Some mm =>
            if (hh <=? 23) && (mm <=? 59)
            then Some (Some ((if (sgn =? 43)%N then 1 else -1) * (hh * 60 + mm) * 60000))
            else None
        | _, _ => None
        end
      else None
  | _ => None
  end.

(** The time part after [T]: the time of day in ms, and the offset.  The
    hour [24] is allowed only as [24:00:00.000]. *)
Definition time_value (tm : jsstr) : option (Z * option Z) :=
  match tm with
  | h1 :: h2 :: c :: m1 :: m2 :: rest =>
      if (c =? 58)%N then
        match parse_digits [h1; h2], parse_digits [m1; m2], parse_seconds rest with
        | Some hh, Some mm, Some (ss, f, z) =>
            match parse_zone z with
            | Some off =>
                if (mm <=? 59) && (ss <=? 59) &&
                   ((hh <? 24) || (hh =? 24) && (mm =? 0) && (ss =? 0) && (f =? 0))
                then Some (((hh * 60 + mm) * 60 + ss) * 1000 + f, off) else None
            | None => None
            end
        | _, _, _ => None
        end
      else None
  | _ => None
  end.

(** The parts before and after the first [T]. *)
Fixpoint split_T (s : jsstr) : option (jsstr * jsstr) :=
  match s with
  | [] => None
  | c :: s' =>
      if (c =? 84)%N then Some ([], s')
      else match split_T s' with Some (a, b) => Some (c :: a, b) | None => None end
  end.

(** The Date Time String Format: a date-only form is UTC, a date-time form
    is in its offset, or in local time without one. *)
Definition parse_date_time (e : env) (s : jsstr) : option Z :=
  match parse_date s with
  | Some t => Some t
  | None =>
      match split_T s with
      | Some (ds, tm) =>
          match parse_date ds, time_value tm with
          | Some d, Some (t, off) => Some (d + t - default (tz_offset_ms e) off)
          | _, _ => None
          end
      | None => None
      end
  end.

(** [new Date(s)]: the standard format, else the engine's own parser. *)
Definition Date_parse (e : env) (s : jsstr) : option Z :=
  match parse_date_time e s with Some t => Some t | None => fallback e s end.

(** The local day number of [new Date()], and the time value of
    [today.setHours(0, 0, 0, 0)]: local midnight, converted back to UTC. *)
Definition local_day (e : env) : Z := (now_ms e + tz_offset_ms e) / msPerDay.

Definition today (e : env) : Z := local_day e * msPerDay - tz_offset_ms e.

(** [a < b] on Date objects: a comparison of time values, false on NaN. *)
Definition date_lt (a : option Z) (b : Z) : bool :=
  match a with Some t => t <? b | None => false end.

(** The condition of line 108: [selectedDate < today]. *)
Definition is_past_date (e : env) (preferredDate : jsstr) : bool :=
  date_lt (Date_parse e preferredDate) (today e).

(** ** Lemmas *)

Lemma date_value_midnight (ys ms ds : jsstr) (t : Z) :
  date_value ys ms ds = Some t → ∃ D, t = D * msPerDay.
Proof.
  unfold date_value.
  destruct (parse_digits ys), (parse_digits ms), (parse_digits ds); try discriminate.
  case_match; [|discriminate]. intros [= <-]. eauto.
Qed.

(** Every parsed date is a UTC midnight. *)
Lemma parse_date_midnight (s : jsstr) (t : Z) :
  parse_date s = Some t → ∃ D, t = D * msPerDay.
Proof.
  unfold parse_date. intros H.
  repeat (case_match; try discriminate); eauto using date_value_midnight.
Qed.

Lemma is_past_date_day (e : env) (s : jsstr) (D : Z) :
  parse_date s = Some (D * msPerDay) →
  is_past_date e s = (D * msPerDay <? local_day e * msPerDay - tz_offset_ms e).
Proof. unfold is_past_date, Date_parse, parse_date_time. intros ->. reflexivity. Qed.

(** The date test on day numbers: with a time-zone offset east of UTC (or
    UTC itself), a date is "past" exactly when its day is before the local
    day of [new Date()]; today is accepted. *)
Theorem past_date_east_of_utc (e : env) (s : jsstr) (D : Z) :
  0 <= tz_offset_ms e < msPerDay →
  parse_date s = Some (D * msPerDay) →
  is_past_date e s = (D <? local_day e).
Proof.
  intros Hoff Hp. rewrite (is_past_date_day e s D Hp). unfold msPerDay in *.
  destruct (Z.ltb_spec D (local_day e)), (Z.ltb_spec (D * 86400000) (local_day e * 86400000 - tz_offset_ms e));
    auto; lia.
Qed.

(** West of UTC the date string is read as UTC midnight, which is the
    evening before local midnight: the local day of [new Date()] itself is
    "past", so today is rejected. *)
Theorem past_date_west_of_utc (e : env) (s : jsstr) (D : Z) :
  - msPerDay < tz_offset_ms e < 0 →
  parse_date s = Some (D * msPerDay) →
  is_past_date e s = (D <=? local_day e).
Proof.
  intros Hoff Hp. rewrite (is_past_date_day e s D Hp). unfold msPerDay in *.
  destruct (Z.leb_spec D (local_day e)), (Z.ltb_spec (D * 86400000) (local_day e * 86400000 - tz_offset_ms e));
    auto; lia.
Qed.

(** ** Witnesses: 2024-06-15 at 12:00 UTC, in UTC-5 and in UTC+2 *)

Definition noon_west : env := mk_env (1718409600000 + 43200000) (-18000000) no_fallback.
Definition noon_east : env := mk_env (1718409600000 + 43200000) 7200000 no_fallback.

Lemma past_date_west_of_utc_witness :
  (- msPerDay < tz_offset_ms noon_west < 0) ∧
  parse_date ⟪"2024-06-15"⟫ = Some (19889 * msPerDay) ∧
  is_past_date noon_west ⟪"2024-06-15"⟫ = (19889 <=? local_day noon_west).
Proof.
  split; [unfold msPerDay; simpl; lia|]. split; [reflexivity|].
  apply past_date_west_of_utc; [unfold msPerDay; simpl; lia|reflexivity].
Defined.

Lemma past_date_east_of_utc_witness :
  (0 <= tz_offset_ms noon_east < msPerDay) ∧
  parse_date ⟪"2024-06-15"⟫ = Some (19889 * msPerDay) ∧
  is_past_date noon_east ⟪"2024-06-15"⟫ = (19889 <? local_day noon_east).
Proof.
  split; [unfold msPerDay; simpl; lia|]. split; [reflexivity|].
  apply past_date_east_of_utc; [unfold msPerDay; simpl; lia|reflexivity].
Defined.

End DateCheck.
