(* ===== verification/Validators.v ===== *)
(** * The form validators of [src/script.js] (lines 80-152)

    [validateAppointmentForm(data)] and [validateContactForm(data)] take the
    object built from the submitted form, report the first failing check
    through [showErrorMessage] and return [false], or return [true].  They
    are written here in the state monad [ST] over any [Notifier], so every
    theorem about them holds for whatever presenter displays the messages.
    [validate_appointment] and [validate_contact] are the pure contract of
    spec section 4.1 (a [reason] or [None] for "valid"), and
    [validateAppointmentForm_refines] / [validateContactForm_refines] prove
    that the stateful code shows exactly the message of that reason. *)

From stdpp Require Import base list gmap strings.
From Stdlib Require Import NArith ZArith Lia.
From S2P Require Import Prelude JsRegex Feedback DateCheck.
Import RegExp DateCheck.

Module Validators.

(** ** Helpers (lines 142-152) *)

(** [[^\s@]] *)
Definition not_space_or_at (c : N) : bool := negb (is_js_space c) && negb (c =? 64)%N.

(** [/^[^\s@]+@[^\s@]+\.[^\s@]+$/] (line 144). *)
Definition emailRegex : regex :=
  RCat (RPlus (RClass not_space_or_at))
    (RCat (RChar 64)
      (RCat (RPlus (RClass not_space_or_at))
        (RCat (RChar 46) (RPlus (RClass not_space_or_at))))).

Definition isValidEmail (email : jsstr) : bool := test emailRegex email.



(** Lines 148-152: only the digit count is checked. *)
Definition isValidPhone (phone : jsstr) : bool := 10 <=? length (strip_nondigits phone).

(** ** Field labels in the "missing field" messages *)

(** [s.replace(/([A-Z])/g, ' $1')] *)
Fixpoint space_before_upper (s : jsstr) : jsstr :=
  match s with
  | [] => []
  | c :: s' =>
      if is_upper c then 32%N :: c :: space_before_upper s'
      else c :: space_before_upper s'
  end.

Fixpoint starts_with (p s : jsstr) : bool :=
  match p, s with
  | [], _ => true
  | c :: p', d :: s' => (c =? d)%N && starts_with p' s'
  | _ :: _, [] => false
  end.

(** [s.replace(pat, rep)] with a string pattern: the first occurrence only. *)
Fixpoint replace_first (pat rep s : jsstr) : jsstr :=
  if starts_with pat s then rep ++ drop (length pat) s
  else match s with
       | [] => []
       | c :: s' => c :: replace_first pat rep s'
       end.

(** Line 86: [field.replace(/([A-Z])/g, ' $1').toLowerCase()]. *)
Definition appointment_label (field : jsstr) : jsstr :=
  toLowerCase (space_before_upper field).

(** Line 127: [field.replace('contact', '').replace(/([A-Z])/g, ' $1').toLowerCase()]. *)
Definition contact_label (field : jsstr) : jsstr :=
  toLowerCase (space_before_upper (replace_first ⟪"contact"⟫ [] field)).

Definition fill_in_message (label : jsstr) : jsstr :=
  ⟪"Please fill in the "⟫ ++ label ++ ⟪" field."⟫.

Definition msg_invalid_email : jsstr := ⟪"Please enter a valid email address."⟫.
Definition msg_invalid_phone : jsstr := ⟪"Please enter a valid phone number."⟫.
Definition msg_past_date : jsstr := ⟪"Please select a future date for your appointment."⟫.
Definition msg_consent : jsstr :=
  ⟪"Please consent to us contacting you about your appointment request."⟫.

Definition appointment_required : list jsstr :=
  [⟪"firstName"⟫; ⟪"lastName"⟫; ⟪"email"⟫; ⟪"phone"⟫; ⟪"appointmentType"⟫;
   ⟪"preferredDate"⟫; ⟪"preferredTime"⟫].

Definition contact_required : list jsstr :=
  [⟪"contactName"⟫; ⟪"contactEmail"⟫; ⟪"subject"⟫; ⟪"contactMessage"⟫].

(** [!data[field] || data[field].trim() === ''] *)
Definition field_missing (v : option jsstr) : bool :=
  negb (truthy v) || match v with Some x => bool_decide (trim x = []) | None => false end.

(** [data.key] for a key the required-field loop has already found. *)
Definition prop (data : form_object) (key : jsstr) : jsstr := default [] (data !! key).

(** ** The validators, against the notifier interface *)

Section WithNotifier.
Context {St : Type} `{Notifier St}.

(** The [for (let field of requiredFields)] loop with its early return. *)
Fixpoint check_required (label : jsstr → jsstr) (data : form_object)
    (fields : list jsstr) : ST St bool :=
  match fields with
  | [] => st_ret true
  | f :: fs =>
      if field_missing (data !! f) then fail_with (fill_in_message (label f))
      else check_required label data fs
  end.

(** Lines 81-120. *)
Definition validateAppointmentForm (e : env) (data : form_object) : ST St bool :=
  (ok <- check_required appointment_label data appointment_required ;;
   if negb ok then st_ret false
   else if negb (isValidEmail (prop data ⟪"email"⟫)) then fail_with msg_invalid_email
   else if negb (isValidPhone (prop data ⟪"phone"⟫)) then fail_with msg_invalid_phone
   else if is_past_date e (prop data ⟪"preferredDate"⟫) then fail_with msg_past_date
   else if negb (truthy (data !! ⟪"consent"⟫)) then fail_with msg_consent
   else st_ret true)%st.

(** Lines 122-140. *)
Definition validateContactForm (data : form_object) : ST St bool :=
  (ok <- check_required contact_label data contact_required ;;
   if negb ok then st_ret false
   else if negb (isValidEmail (prop data ⟪"contactEmail"⟫)) then fail_with msg_invalid_email
   else st_ret true)%st.

End WithNotifier.

(** ** The pure contract (spec section 4.1) *)

Inductive reason :=
| MissingField (field : jsstr)
| InvalidEmail
| InvalidPhone
| PastDate
| ConsentRequired.

Fixpoint first_missing (data : form_object) (fields : list jsstr) : option jsstr :=
  match fields with
  | [] => None
  | f :: fs => if field_missing (data !! f) then Some f else first_missing data fs
  end.

Definition validate_appointment (e : env) (data : form_object) : option reason :=
  match first_missing data appointment_required with
  | Some f => Some (MissingField f)
  | None =>
      if negb (isValidEmail (prop data ⟪"email"⟫)) then Some InvalidEmail
      else if negb (isValidPhone (prop data ⟪"phone"⟫)) then Some InvalidPhone
      else if is_past_date e (prop data ⟪"preferredDate"⟫) then Some PastDate
      else if negb (truthy (data !! ⟪"consent"⟫)) then Some ConsentRequired
      else None
  end.

Definition validate_contact (data : form_object) : option reason :=
  match first_missing data contact_required with
  | Some f => Some (MissingField f)
  | None => if negb (isValidEmail (prop data ⟪"contactEmail"⟫)) then Some InvalidEmail else None
  end.

Definition reason_message (label : jsstr → jsstr) (r : reason) : jsstr :=
  match r with
  | MissingField f => fill_in_message (label f)
  | InvalidEmail => msg_invalid_email
  | InvalidPhone => msg_invalid_phone
  | PastDate => msg_past_date
  | ConsentRequired => msg_consent
  end.

(** What a validator run does to the notifier, given the contract's answer. *)
Definition outcome {St} `{Notifier St} (label : jsstr → jsstr) (r : option reason)
    (s : St) : bool * St :=
  match r with
  | None => (true, s)
  | Some r => (false, showErrorMessage (reason_message label r) s)
  end.

(** ** A direct reading of the email pattern

    Not part of the source: a specification of what [emailRegex] accepts,
    to compare the pattern against. *)

(** Split a string at the first occurrence of [c]. *)
Fixpoint break_at (c : N) (s : jsstr) : option (jsstr * jsstr) :=
  match s with
  | [] => None
  | d :: s' =>
      if (d =? c)%N then Some ([], s') else prod_map (cons d) id <$> break_at c s'
  end.

(** No white space; a non-empty part before the first [@]; no second
    [@]; a dot in the domain that is neither its first nor its last
    character. *)
Definition email_shape (s : jsstr) : bool :=
  forallb (λ c, negb (is_js_space c)) s &&
  match break_at 64 s with
  | Some (local, domain) =>
      negb (bool_decide (local = [])) && negb (existsb (N.eqb 64) domain) &&
      existsb (N.eqb 46) (removelast (tail domain))
  | None => false
  end.

(** ** Lemmas *)

Lemma check_required_run {St} `{Notifier St} label data fields (s : St) :
  check_required label data fields s =
  outcome label (MissingField <$> first_missing data fields) s.
Proof.
  induction fields as [|f fs IH]; simpl; [done|].
  destruct (field_missing (data !! f)); [done|apply IH].
Qed.

(** C23: A field counts as missing exactly when it is absent or holds only
    white space (the ECMAScript WhiteSpace and LineTerminator units). *)
Lemma field_missing_iff (v : option jsstr) :
  field_missing v = true ↔
  v = None ∨ ∃ x, v = Some x ∧ Forall (λ c, is_js_space c = true) x.
Proof.
  unfold field_missing. destruct v as [[|c x]|]; simpl.
  - split; [eauto|done].
  - rewrite bool_decide_eq_true, trim_nil_iff. naive_solver.
  - naive_solver.
Qed.

(** C4: A field is missing when it is absent or blank (only white space),
    and [first_missing] returns the first such field of the list. *)
Lemma first_missing_spec (data : form_object) (fields : list jsstr) (f : jsstr) :
  first_missing data fields = Some f ↔
  ∃ pre post, fields = pre ++ f :: post ∧
    Forall (λ g, field_missing (data !! g) = false) pre ∧
    field_missing (data !! f) = true.
Proof.
  induction fields as [|g gs IH]; simpl.
  - split; [done|]. intros ([|] & ? & ? & _); discriminate.
  - destruct (field_missing (data !! g)) eqn:Eg.
    + split.
      * intros [= <-]. exists [], gs. auto.
      * intros ([|h pre] & post & Es & Hpre & Hf); simpl in Es; injection Es as -> ?;
          [done|]. invc Hpre. congruence.
    + rewrite IH. split.
      * intros (pre & post & -> & Hpre & Hf). exists (g :: pre), post. auto.
      * intros ([|h pre] & post & Es & Hpre & Hf); simpl in Es; injection Es as -> ->;
          [congruence|]. invc Hpre. eauto.
Qed.

(** ** The email pattern *)

Lemma not_space_or_at_Forall (l : jsstr) :
  Forall (λ c, not_space_or_at c = true) l ↔
  Forall (λ c, negb (is_js_space c) = true) l ∧ 64%N ∉ l.
Proof.
  induction l as [|c l IH]; [split; [split; [done|set_solver]|done]|].
  rewrite !Forall_cons, IH, elem_of_cons. unfold not_space_or_at.
  rewrite andb_true_iff, !negb_true_iff, N.eqb_neq. naive_solver.
Qed.

Lemma break_at_app (c : N) (l r : jsstr) : c ∉ l → break_at c (l ++ c :: r) = Some (l, r).
Proof.
  induction l as [|d l IH]; simpl; intros Hn; [by rewrite N.eqb_refl|].
  rewrite elem_of_cons in Hn. destruct (N.eqb_spec d c); [naive_solver|].
  rewrite IH; naive_solver.
Qed.

Lemma break_at_Some (c : N) (s l r : jsstr) :
  break_at c s = Some (l, r) → s = l ++ c :: r ∧ c ∉ l.
Proof.
  revert l r. induction s as [|d s IH]; simpl; intros l r H; [done|].
  destruct (N.eqb_spec d c) as [->|Hne].
  - injection H as <- <-. split; [done|set_solver].
  - destruct (break_at c s) as [[l' r']|]; simpl in H; [|done].
    injection H as <- <-. destruct (IH _ _ eq_refl) as [-> Hn].
    split; [done|]. rewrite elem_of_cons. naive_solver.
Qed.

(** [c] occurs strictly inside [l]: neither first nor last. *)
Lemma inner_elem_iff (c : N) (l : jsstr) :
  c ∈ removelast (tail l) ↔ ∃ d1 d2, l = d1 ++ c :: d2 ∧ d1 ≠ [] ∧ d2 ≠ [].
Proof.
  split.
  - intros Hc. apply list_elem_of_split in Hc as (a & b & Hab).
    destruct l as [|x t]; simpl in Hab; [destruct a; discriminate|].
    destruct (decide (t = [])) as [->|Ht]; [destruct a; discriminate|].
    rewrite (app_removelast_last x Ht), Hab.
    exists (x :: a), (b ++ [List.last t x]).
    split; [by rewrite <- app_assoc|]. split; [done|]. by destruct b.
  - intros (d1 & d2 & -> & H1 & H2). destruct d1 as [|x a]; [done|].
    destruct (exists_last H2) as (b & y & ->). simpl.
    replace (a ++ c :: b ++ [y]) with ((a ++ c :: b) ++ [y]) by by rewrite <- app_assoc.
    rewrite removelast_last. set_solver.
Qed.

Lemma email_regex_iff (s : jsstr) :
  matches emailRegex s ↔
  ∃ l d1 d2, s = l ++ 64%N :: d1 ++ 46%N :: d2 ∧ l ≠ [] ∧ d1 ≠ [] ∧ d2 ≠ [] ∧
    Forall (λ c, not_space_or_at c = true) l ∧
    Forall (λ c, not_space_or_at c = true) d1 ∧
    Forall (λ c, not_space_or_at c = true) d2.
Proof.
  unfold emailRegex, RChar. split.
  - intros H.
    apply matches_cat_iff in H as (l & t1 & -> & Hl & H).
    apply matches_cat_iff in H as (a & t2 & -> & Ha & H).
    apply matches_cat_iff in H as (d1 & t3 & -> & Hd1 & H).
    apply matches_cat_iff in H as (b & d2 & -> & Hb & Hd2).
    apply matches_class_iff in Ha as (? & -> & ->%N.eqb_eq).
    apply matches_class_iff in Hb as (? & -> & ->%N.eqb_eq).
    apply matches_plus_class_iff in Hl, Hd1, Hd2.
    exists l, d1, d2. naive_solver.
  - intros (l & d1 & d2 & -> & Hl & Hd1 & Hd2 & Cl & Cd1 & Cd2).
    apply m_cat; [by apply matches_plus_class_iff|].
    apply (m_cat _ _ [64%N]); [constructor; apply N.eqb_refl|].
    apply m_cat; [by apply matches_plus_class_iff|].
    apply (m_cat _ _ [46%N]); [constructor; apply N.eqb_refl|].
    by apply matches_plus_class_iff.
Qed.

(** C5: [isValidEmail] agrees with the direct reading: the input has no white
    space, a non-empty part before its only [@], and a dot in the domain
    that is neither its first nor its last character. *)
Theorem isValidEmail_shape (s : jsstr) : isValidEmail s = email_shape s.
Proof.
  apply Bool.eq_iff_eq_true. unfold isValidEmail. rewrite test_spec, email_regex_iff.
  unfold email_shape. rewrite andb_true_iff, forallb_Forall_iff. split.
  - intros (l & d1 & d2 & -> & Hl & Hd1 & Hd2 & Cl & Cd1 & Cd2).
    apply not_space_or_at_Forall in Cl as [Sl Al], Cd1 as [S1 A1], Cd2 as [S2 A2].
    rewrite break_at_app by done.
    rewrite !andb_true_iff, !negb_true_iff, bool_decide_eq_false,
      <- not_true_iff_false, !existsb_eqb_iff, inner_elem_iff.
    split; [repeat (rewrite Forall_app || rewrite Forall_cons); repeat split; auto; reflexivity|].
    split; [split; [done|set_solver]|eauto].
  - intros [Hs H]. destruct (break_at 64 s) as [[l dom]|] eqn:E; [|done].
    apply break_at_Some in E as [-> Hl].
    rewrite !andb_true_iff, !negb_true_iff, bool_decide_eq_false,
      <- not_true_iff_false, !existsb_eqb_iff, inner_elem_iff in H.
    destruct H as [[Hne Hdom] (d1 & d2 & -> & H1 & H2)].
    repeat (rewrite Forall_app in Hs || rewrite Forall_cons in Hs).
    exists l, d1, d2. rewrite !not_space_or_at_Forall.
    split; [done|]. set_solver.
Qed.

(** ** Refinement: the stateful validators implement the pure contract *)

Section Refinement.
Context {St : Type} `{Notifier St}.

Lemma validateAppointmentForm_run (e : env) (data : form_object) (s : St) :
  validateAppointmentForm e data s = outcome appointment_label (validate_appointment e data) s.
Proof.
  unfold validateAppointmentForm, validate_appointment, st_bind.
  rewrite check_required_run.
  destruct (first_missing data appointment_required); [done|].
  simpl. by repeat case_match.
Qed.

Lemma validateContactForm_run (data : form_object) (s : St) :
  validateContactForm data s = outcome contact_label (validate_contact data) s.
Proof.
  unfold validateContactForm, validate_contact, st_bind.
  rewrite check_required_run.
  destruct (first_missing data contact_required); [done|].
  simpl. by case_match.
Qed.

(** C1: [validateAppointmentForm] returns [true] and leaves the notifier
    untouched exactly when the contract finds no reason, and otherwise
    returns [false] after showing exactly the message of the first
    failing check, as an error. *)
Theorem validateAppointmentForm_refines (e : env) (data : form_object) (s : St) :
  validateAppointmentForm e data s = outcome appointment_label (validate_appointment e data) s.
Proof. apply validateAppointmentForm_run. Qed.

(** C2: The same for [validateContactForm] and its contract. *)
Theorem validateContactForm_refines (data : form_object) (s : St) :
  validateContactForm data s = outcome contact_label (validate_contact data) s.
Proof. apply validateContactForm_run. Qed.

End Refinement.

(** ** Behaviour of the checks *)

Section Checks.
Context {St : Type} `{Notifier St}.

(** C14: The contact form's label drops ["contact"] and then puts a space
    before the capital letter that is now first: a missing [contactName]
    is reported as ["Please fill in the  name field."], with two spaces. *)
Theorem contact_missing_name_message (data : form_object) (s : St) :
  field_missing (data !! ⟪"contactName"⟫) = true →
  validateContactForm data s = (false, showErrorMessage ⟪"Please fill in the  name field."⟫ s).
Proof.
  intros Hm. rewrite validateContactForm_run.
  unfold validate_contact, contact_required. simpl. by rewrite Hm.
Qed.

End Checks.

(** C10: A complete, valid appointment request with consent for the
    current local day is accepted at UTC or east of it, and refused as a past
    date west of UTC. *)
Theorem appointment_today_by_offset (e : env) (data : form_object) :
  (- msPerDay < tz_offset_ms e < msPerDay)%Z →
  first_missing data appointment_required = None →
  isValidEmail (prop data ⟪"email"⟫) = true →
  isValidPhone (prop data ⟪"phone"⟫) = true →
  parse_date (prop data ⟪"preferredDate"⟫) = Some (local_day e * msPerDay)%Z →
  truthy (data !! ⟪"consent"⟫) = true →
  validate_appointment e data = if (tz_offset_ms e <? 0)%Z then Some PastDate else None.
Proof.
  intros Hoff Hmiss Hmail Hphone Hdate Hc. unfold validate_appointment.
  rewrite Hmiss, Hmail, Hphone. simpl. destruct (Z.ltb_spec (tz_offset_ms e) 0).
  - by rewrite (past_date_west_of_utc e _ _ ltac:(lia) Hdate), Z.leb_refl.
  - by rewrite (past_date_east_of_utc e _ _ ltac:(lia) Hdate), Z.ltb_irrefl, Hc.
Qed.

(** C17: Whenever [new Date(preferredDate)] is NaN in the engine (a string
    neither in the Date Time String Format nor accepted by the engine's own
    parser), [NaN < today] is false and the date check lets the request
    through. *)
Theorem appointment_unparsable_date_accepted (e : env) (data : form_object) :
  first_missing data appointment_required = None →
  isValidEmail (prop data ⟪"email"⟫) = true →
  isValidPhone (prop data ⟪"phone"⟫) = true →
  Date_parse e (prop data ⟪"preferredDate"⟫) = None →
  truthy (data !! ⟪"consent"⟫) = true →
  validate_appointment e data = None.
Proof.
  intros Hmiss Hmail Hphone Hdate Hc. unfold validate_appointment, is_past_date.
  by rewrite Hmiss, Hmail, Hphone, Hdate, Hc.
Qed.

(** ** The unused phone pattern *)




(** ** Witnesses *)

Definition sample_appointment : form_object := list_to_map
  [(⟪"firstName"⟫, ⟪"Ada"⟫); (⟪"lastName"⟫, ⟪"Lovelace"⟫);
   (⟪"email"⟫, ⟪"ada@example.com"⟫); (⟪"phone"⟫, ⟪"555-123-4567"⟫);
   (⟪"appointmentType"⟫, ⟪"consultation"⟫); (⟪"preferredDate"⟫, ⟪"2024-06-15"⟫);
   (⟪"preferredTime"⟫, ⟪"10:00"⟫); (⟪"consent"⟫, ⟪"on"⟫)].

Lemma contact_missing_name_message_witness :
  field_missing ((∅ : form_object) !! ⟪"contactName"⟫) = true ∧
  validateContactForm (St := list (jsstr * msg_kind)) ∅ [] =
    (false, showErrorMessage ⟪"Please fill in the  name field."⟫ []).
Proof. split; [reflexivity|]. apply contact_missing_name_message. reflexivity. Defined.

Lemma appointment_today_by_offset_witness :
  validate_appointment noon_west sample_appointment = Some PastDate ∧
  validate_appointment noon_east sample_appointment = None.
Proof.
  split; [apply (appointment_today_by_offset noon_west)|apply (appointment_today_by_offset noon_east)];
    first [unfold msPerDay; simpl; lia | vm_compute; reflexivity].
Defined.

Lemma appointment_unparsable_date_accepted_witness :
  validate_appointment noon_west
    (<[⟪"preferredDate"⟫ := ⟪"next week"⟫]> sample_appointment) = None.
Proof. apply appointment_unparsable_date_accepted; vm_compute; reflexivity. Defined.


End Validators.
