(* ===== verification/Presenter.v ===== *)
(** * The popup presenter: [showMessage] and its lifecycle (lines 154-236)

    [showMessage(message, type)] removes the first [.message-popup] element
    of the document, creates a new one, adds the [#message-animations]
    style once, appends the popup to [document.body], wires its close
    button to [messageDiv.remove()] and schedules
    [setTimeout(() => { if (messageDiv.parentNode) messageDiv.remove(); }, 5000)].

    The document is the record [doc]: the popups attached to the body in
    document order, the number of animation style elements, a counter that
    gives each created element its identity, the pending timer callbacks
    and the clock.  [Element.remove()] on a node that is no longer attached
    does nothing, which [remove_popup] reproduces.  The event loop is the
    relation [step]: a handler calls [showMessage], the user clicks the close
    button of a displayed popup, time passes, or a due timer runs.  Time
    never passes a pending timer's due time ([step_tick]); the timers run
    in the order they were scheduled. *)

From stdpp Require Import base list relations strings.
From Stdlib Require Import ZArith Lia Sorting.Sorted.
From S2P Require Import Prelude Feedback.

Module Presenter.

Local Open Scope Z_scope.

Record popup := mk_popup { pid : nat; ptext : jsstr; pkind : msg_kind; born : Z }.

(** The callback of lines 231-235, for the popup with identity [target]. *)
Record timer := mk_timer { due : Z; target : nat }.

Record doc := mk_doc {
  body : list popup;
  anim_styles : nat;
  next_pid : nat;
  timers : list timer;
  clock : Z
}.

Definition popup_delay : Z := 5000.

(** [existingMessage.remove()] for the first [.message-popup], if any. *)
Definition remove_first_popup (ps : list popup) : list popup :=
  match ps with [] => [] | _ :: rest => rest end.

(** Lines 163-236. *)
Definition showMessage (message : jsstr) (type : msg_kind) (d : doc) : doc :=
  let p := mk_popup (next_pid d) message type (clock d) in
  {| body := remove_first_popup (body d) ++ [p];
     anim_styles := if anim_styles d =? 0 then 1 else anim_styles d;
     next_pid := S (next_pid d);
     timers := timers d ++ [mk_timer (clock d + popup_delay) (next_pid d)];
     clock := clock d |}%nat.

Definition attached (i : nat) (d : doc) : bool := existsb (λ p, pid p =? i)%nat (body d).

(** [messageDiv.remove()]: detach the popup with identity [i], if attached. *)
Definition remove_popup (i : nat) (d : doc) : doc :=
  {| body := List.filter (λ p, negb (pid p =? i)%nat) (body d);
     anim_styles := anim_styles d; next_pid := next_pid d;
     timers := timers d; clock := clock d |}.

(** Lines 226-228: the close button's click listener. *)
Definition close_click (i : nat) (d : doc) : doc := remove_popup i d.

(** Lines 231-235: the timer callback, which checks [parentNode] first. *)
Definition timer_callback (i : nat) (d : doc) : doc :=
  if attached i d then remove_popup i d else d.

Definition pop_timer (d : doc) : doc :=
  {| body := body d; anim_styles := anim_styles d; next_pid := next_pid d;
     timers := tail (timers d); clock := clock d |}.

Definition set_clock (t : Z) (d : doc) : doc :=
  {| body := body d; anim_styles := anim_styles d; next_pid := next_pid d;
     timers := timers d; clock := t |}.

Definition init_doc (t0 : Z) : doc := mk_doc [] 0 0 [] t0.

(** The steps that need no user input: time passes, up to the first due
    timer, and a due timer's callback runs. *)
Inductive timer_step : doc → doc → Prop :=
| step_tick d t :
    clock d ≤ t → (∀ tm, tm ∈ timers d → t ≤ due tm) → timer_step d (set_clock t d)
| step_fire d tm rest :
    timers d = tm :: rest → due tm ≤ clock d →
    timer_step d (timer_callback (target tm) (pop_timer d)).

(** The event loop: a [showMessage] call, a click on a close button, or a
    timer step. *)
Inductive step : doc → doc → Prop :=
| step_show message type d : step d (showMessage message type d)
| step_close d p : p ∈ body d → step d (close_click (pid p) d)
| step_timer d d' : timer_step d d' → step d d'.

Definition reachable (t0 : Z) (d : doc) : Prop := rtc step (init_doc t0) d.

(** The event loop with no user input: advance the clock to the first
    pending timer when it is not yet due, and run its callback. *)
Definition idle_step (d : doc) : option doc :=
  match timers d with
  | [] => None
  | tm :: _ => Some (timer_callback (target tm) (pop_timer (set_clock (Z.max (clock d) (due tm)) d)))
  end.

(** At most [fuel] rounds of the idle event loop. *)
Fixpoint run_timers (fuel : nat) (d : doc) : doc :=
  match fuel with
  | O => d
  | S fuel' => match idle_step d with None => d | Some d' => run_timers fuel' d' end
  end.

#[export] Instance doc_notifier : Notifier doc := showMessage.

(** The popup on display is the last one attached. *)
#[export] Instance doc_notifier_spec : NotifierSpec doc := {
  displayed d := (λ p, (ptext p, pkind p)) <$> last (body d);
  displayed_show m k d := ltac:(simpl; unfold showMessage; simpl; by rewrite last_snoc)
}.

(** ** The invariant of the popup layer *)

Record inv (d : doc) : Prop := {
  inv_one : (length (body d) ≤ 1)%nat;
  inv_style : (anim_styles d ≤ 1)%nat;
  inv_popups : ∀ p, p ∈ body d →
    (pid p < next_pid d)%nat ∧ born p ≤ clock d ∧
    ∃ tm, tm ∈ timers d ∧ target tm = pid p ∧ due tm = born p + popup_delay;
  inv_timers : ∀ tm, tm ∈ timers d → clock d ≤ due tm ≤ clock d + popup_delay;
  inv_sorted : StronglySorted (λ a b, due a ≤ due b) (timers d)
}.

(** Arithmetic on times, with the 5000 ms delay unfolded. *)
Ltac dlia := unfold popup_delay in *; lia.

(** ** Lemmas on the operations *)

Lemma elem_of_remove_popup (q : popup) (i : nat) (d : doc) :
  q ∈ body (remove_popup i d) ↔ q ∈ body d ∧ pid q ≠ i.
Proof.
  simpl. rewrite list_elem_of_In, filter_In, <- list_elem_of_In, negb_true_iff, Nat.eqb_neq.
  done.
Qed.

Lemma elem_of_remove_first_popup (q : popup) (ps : list popup) :
  q ∈ remove_first_popup ps → q ∈ ps.
Proof. destruct ps; simpl; set_solver. Qed.

Lemma timer_callback_remove (i : nat) (d : doc) : timer_callback i d = remove_popup i d.
Proof.
  unfold timer_callback, attached. destruct (existsb _ _) eqn:E; [done|].
  destruct d as [b a n ts c]; unfold remove_popup; simpl in *. f_equal.
  induction b as [|p b IH]; simpl in *; [done|].
  apply orb_false_iff in E as [E1 E2]. rewrite E1. simpl. by rewrite <- IH.
Qed.

Lemma StronglySorted_snoc {A} (R : A → A → Prop) (l : list A) (x : A) :
  StronglySorted R l → (∀ y, y ∈ l → R y x) → StronglySorted R (l ++ [x]).
Proof.
  induction 1 as [|a l _ IH Ha]; intros Hx; simpl.
  - repeat constructor.
  - constructor; [apply IH; set_solver|].
    apply Forall_app; split; [done|]. constructor; [set_solver|done].
Qed.

#[export] Hint Resolve elem_of_remove_first_popup : js.

(** ** Each step preserves the invariant *)

Lemma inv_show (m : jsstr) (k : msg_kind) (d : doc) : inv d → inv (showMessage m k d).
Proof.
  intros [Hone Hst Hp Ht Hs]. unfold showMessage, popup_delay in *. split; simpl.
  - destruct (body d) as [|? [|]]; simpl in *; lia.
  - destruct (anim_styles d); simpl; lia.
  - intros p [Hin|Hin%list_elem_of_singleton]%elem_of_app.
    + apply elem_of_remove_first_popup, Hp in Hin as (? & ? & tm & ? & ? & ?).
      split; [lia|]. split; [done|]. exists tm. set_solver.
    + subst p. simpl. split; [lia|]. split; [lia|].
      eexists. split; [apply elem_of_app; right; by apply list_elem_of_singleton|done].
  - intros tm [Hin|Hin%list_elem_of_singleton]%elem_of_app; [apply Ht in Hin|subst tm]; simpl; dlia.
  - apply StronglySorted_snoc; [done|]. intros y Hy%Ht. simpl. dlia.
Qed.

Lemma inv_remove (i : nat) (d : doc) : inv d → inv (remove_popup i d).
Proof.
  intros [Hone Hst Hp Ht Hs]. split; simpl; try done.
  - pose proof (List.filter_length_le (λ p, negb (pid p =? i)%nat) (body d)). lia.
  - intros p Hin%(elem_of_remove_popup _ i d). apply Hp. tauto.
Qed.

Lemma inv_tick (t : Z) (d : doc) :
  inv d → clock d ≤ t → (∀ tm, tm ∈ timers d → t ≤ due tm) → inv (set_clock t d).
Proof.
  intros [Hone Hst Hp Ht Hs] Hle Hdue. split; simpl; try done.
  - intros p Hin. destruct (Hp p Hin) as (? & ? & ?). split; [done|]. split; [lia|done].
  - intros tm Hin. specialize (Ht tm Hin). specialize (Hdue tm Hin). dlia.
Qed.

Lemma inv_fire (tm : timer) (rest : list timer) (d : doc) :
  inv d → timers d = tm :: rest →
  inv (timer_callback (target tm) (pop_timer d)).
Proof.
  intros [Hone Hst Hp Ht Hs] Hts. rewrite timer_callback_remove.
  split; simpl; rewrite ?Hts in *; simpl; try done.
  - pose proof (List.filter_length_le (λ p, negb (pid p =? target tm)%nat) (body d)). lia.
  - intros p Hin%(elem_of_remove_popup _ _ (pop_timer d)). simpl in Hin.
    destruct Hin as [Hin Hne]. destruct (Hp p Hin) as (? & ? & tm' & Htm' & Htg & ?).
    split; [done|]. split; [done|]. exists tm'. split; [|done].
    apply elem_of_cons in Htm' as [->|]; [congruence|done].
  - intros tm' Hin. apply Ht. set_solver.
  - by invc Hs.
Qed.

Lemma inv_init (t0 : Z) : inv (init_doc t0).
Proof. split; simpl; try lia; try set_solver. constructor. Qed.

Lemma step_inv (d d' : doc) : inv d → step d d' → inv d'.
Proof.
  intros Hi Hs. destruct Hs as [| |? ? []].
  - by apply inv_show.
  - by apply inv_remove.
  - by apply inv_tick.
  - by eapply inv_fire.
Qed.

Lemma rtc_step_inv (d d' : doc) : rtc step d d' → inv d → inv d'.
Proof. induction 1; eauto using step_inv. Qed.

Lemma reachable_inv (t0 : Z) (d : doc) : reachable t0 d → inv d.
Proof. intros H. eapply rtc_step_inv; [exact H|apply inv_init]. Qed.

(** A step adds no popup other than a fresh one, and identities only grow. *)
Lemma step_popup_origin (d d' : doc) (p : popup) :
  step d d' → p ∈ body d' → p ∈ body d ∨ pid p = next_pid d.
Proof.
  destruct 1 as [| |? ? []]; simpl; rewrite ?timer_callback_remove; intros Hin.
  - apply elem_of_app in Hin as [Hin|Hin%list_elem_of_singleton].
    + left. by apply elem_of_remove_first_popup.
    + right. by subst p.
  - left. by apply elem_of_remove_popup in Hin as [? _].
  - by left.
  - left. by apply (elem_of_remove_popup _ _ (pop_timer _)) in Hin as [? _].
Qed.

Lemma step_next_pid (d d' : doc) : step d d' → (next_pid d ≤ next_pid d')%nat.
Proof. destruct 1 as [| |? ? []]; simpl; rewrite ?timer_callback_remove; simpl; lia. Qed.

(** The head of the timer queue is due no later than any other timer. *)
Lemma sorted_head_min (tm : timer) (rest : list timer) :
  StronglySorted (λ a b, due a ≤ due b) (tm :: rest) →
  ∀ tm', tm' ∈ tm :: rest → due tm ≤ due tm'.
Proof.
  intros Hs tm' Hin. inversion Hs as [|? ? _ Hf]; subst.
  apply elem_of_cons in Hin as [->|Hin]; [lia|].
  rewrite Forall_forall in Hf. by apply Hf.
Qed.

Lemma idle_step_timers (d d' : doc) : idle_step d = Some d' → timers d' = tail (timers d).
Proof.
  unfold idle_step. destruct (timers d) as [|tm rest] eqn:Et; [done|].
  intros [= <-]. rewrite timer_callback_remove. simpl. by rewrite Et.
Qed.

(** Each round runs one callback, and a callback never schedules a timer. *)
Lemma run_timers_enough (fuel : nat) (d : doc) :
  (length (timers d) ≤ fuel)%nat →
  timers (run_timers fuel d) = [] ∧ run_timers fuel d = run_timers (length (timers d)) d.
Proof.
  revert d. induction fuel as [|fuel IH]; intros d Hf.
  - destruct (timers d) eqn:Et; [done|simpl in Hf; lia].
  - simpl. destruct (idle_step d) as [d'|] eqn:Hs.
    + pose proof (idle_step_timers d d' Hs) as Ht.
      destruct (timers d) as [|tm rest] eqn:Et; [unfold idle_step in Hs; by rewrite Et in Hs|].
      simpl in Hf, Ht. destruct (IH d') as [H1 H2]; [rewrite Ht; lia|].
      split; [done|]. simpl. by rewrite Hs, H2, Ht.
    + unfold idle_step in Hs. destruct (timers d) eqn:Et; [|done]. by split.
Qed.

Lemma idle_step_rtc (d d' : doc) : inv d → idle_step d = Some d' → rtc timer_step d d' ∧ inv d'.
Proof.
  intros Hi. unfold idle_step. destruct (timers d) as [|tm rest] eqn:Et; [done|]. intros [= <-].
  pose proof (inv_sorted d Hi) as Hs. rewrite Et in Hs.
  assert (clock d ≤ due tm) as Hc by (apply (inv_timers d Hi); rewrite Et; set_solver).
  rewrite Z.max_r by done.
  assert (timer_step d (set_clock (due tm) d)) as S1.
  { apply step_tick; [done|]. intros tm'. rewrite Et. by apply sorted_head_min. }
  assert (timer_step (set_clock (due tm) d)
            (timer_callback (target tm) (pop_timer (set_clock (due tm) d)))) as S2.
  { eapply step_fire; [simpl; exact Et|simpl; lia]. }
  split; [eapply rtc_l; [exact S1|by apply rtc_once]|].
  eapply step_inv; [eapply step_inv|]; eauto using step_timer.
Qed.

Lemma run_timers_rtc (fuel : nat) (d : doc) :
  inv d → rtc timer_step d (run_timers fuel d) ∧ inv (run_timers fuel d).
Proof.
  revert d. induction fuel as [|fuel IH]; intros d Hi; simpl; [done|].
  destruct (idle_step d) as [d'|] eqn:Hs; [|done].
  destruct (idle_step_rtc d d' Hi Hs) as [Hr Hi']. destruct (IH d' Hi') as [Hr' ?].
  split; [by etrans|done].
Qed.

(** Every attached popup has a pending timer. *)
Lemma inv_no_timers (d : doc) : inv d → timers d = [] → body d = [].
Proof.
  intros Hi Ht. destruct (body d) as [|p ps] eqn:Eb; [done|].
  destruct (inv_popups d Hi p) as (_ & _ & tm & Htm & _); [rewrite Eb; set_solver|].
  rewrite Ht in Htm. set_solver.
Qed.

Lemma timer_rtc_step (d d' : doc) : rtc timer_step d d' → rtc step d d'.
Proof. induction 1; [done|]. eapply rtc_l; [by apply step_timer|done]. Qed.

(** The clock of the idle loop never passes a bound on every pending due
    time. *)
Lemma run_timers_clock (fuel : nat) (d : doc) (B : Z) :
  clock d ≤ B → (∀ tm, tm ∈ timers d → due tm ≤ B) → clock (run_timers fuel d) ≤ B.
Proof.
  revert d. induction fuel as [|fuel IH]; intros d Hc Ht; simpl; [done|].
  destruct (idle_step d) as [d'|] eqn:Hs; [|done]. apply IH.
  - unfold idle_step in Hs. destruct (timers d) as [|tm rest] eqn:Et; [done|].
    injection Hs as <-. rewrite timer_callback_remove. simpl.
    assert (due tm ≤ B) by (apply Ht; set_solver). lia.
  - intros tm Htm. apply Ht. rewrite (idle_step_timers d d' Hs) in Htm.
    destruct (timers d); simpl in *; set_solver.
Qed.

Lemma remove_popup_idem (i : nat) (d : doc) :
  remove_popup i (remove_popup i d) = remove_popup i d.
Proof.
  unfold remove_popup; simpl. f_equal.
  induction (body d) as [|p ps IH]; simpl; [done|].
  destruct (pid p =? i)%nat eqn:E; simpl; rewrite ?E; simpl; by rewrite IH.
Qed.

(** ** Properties of the popup layer *)

(** C16: Showing a message replaces the first popup instead of stacking a new
    one on top of it, and the new popup is the last one of the body. *)
Theorem showMessage_replaces (m : jsstr) (k : msg_kind) (d : doc) :
  length (body (showMessage m k d)) = Nat.max 1 (length (body d)) ∧
  last (body (showMessage m k d)) = Some (mk_popup (next_pid d) m k (clock d)).
Proof.
  unfold showMessage; simpl. rewrite last_snoc, length_app.
  split; [|done]. destruct (body d); simpl; lia.
Qed.

(** C3: In every state the event loop reaches, at most one popup is
    displayed. *)
Theorem at_most_one_popup (t0 : Z) (d : doc) :
  reachable t0 d → (length (body d) ≤ 1)%nat.
Proof. intros H. exact (inv_one d (reachable_inv t0 d H)). Qed.

(** C6: No popup stays on display more than 5000 ms after it was shown. *)
Theorem popup_lifetime (t0 : Z) (d : doc) (p : popup) :
  reachable t0 d → p ∈ body d → clock d ≤ born p + popup_delay.
Proof.
  intros H Hin. destruct (inv_popups d (reachable_inv t0 d H) p Hin) as (_ & _ & tm & Htm & _ & <-).
  exact (proj1 (inv_timers d (reachable_inv t0 d H) tm Htm)).
Qed.

(** C7: The close button and the timer race to dismiss the same popup:
    whichever runs second changes nothing. *)
Theorem dismiss_idempotent (i : nat) (d : doc) :
  close_click i (close_click i d) = close_click i d ∧
  timer_callback i (close_click i d) = close_click i d ∧
  close_click i (timer_callback i d) = timer_callback i d.
Proof.
  unfold close_click. rewrite !timer_callback_remove, remove_popup_idem. done.
Qed.

(** C12: A popup that is not on display in [d], and was created before [d]
    (its identity is below [next_pid d]), is never displayed again. *)
Theorem dismissed_never_reshown (d d' : doc) (p : popup) :
  rtc step d d' → p ∈ body d' → p ∈ body d ∨ (next_pid d ≤ pid p)%nat.
Proof.
  induction 1 as [d|d d1 d' Hs _ IH]; [by left|]. intros Hin.
  destruct (IH Hin) as [Hin1|Hge].
  - destruct (step_popup_origin d d1 p Hs Hin1) as [Hin0| ->]; [by left|right; lia].
  - right. pose proof (step_next_pid d d1 Hs). lia.
Qed.

(** C13: Every popup goes away by itself within the 5000 ms delay: from a
    reachable document, time passing and timer callbacks alone, with no
    click, reach a document with no popup before the clock has advanced by
    5000 ms. *)
Theorem popups_dismissed_within_delay (t0 : Z) (d : doc) :
  reachable t0 d →
  ∃ d', rtc timer_step d d' ∧ body d' = [] ∧ clock d' ≤ clock d + popup_delay.
Proof.
  intros Hr. pose proof (reachable_inv t0 d Hr) as Hi.
  exists (run_timers (length (timers d)) d).
  destruct (run_timers_rtc (length (timers d)) d Hi) as [Hrtc Hi'].
  split; [done|]. split.
  - apply inv_no_timers; [done|]. by apply run_timers_enough.
  - apply run_timers_clock; [dlia|]. intros tm Htm. by apply (inv_timers d Hi).
Qed.

(** C11: The timers terminate: with no user input, the event loop runs out
    of callbacks after as many rounds as there are pending timers, more
    rounds change nothing, and from a reachable document it then shows no
    popup and has taken steps of the event loop only. *)
Theorem timers_terminate (t0 : Z) (d : doc) (fuel : nat) :
  (length (timers d) ≤ fuel)%nat →
  timers (run_timers fuel d) = [] ∧ run_timers fuel d = run_timers (length (timers d)) d ∧
  (reachable t0 d → body (run_timers fuel d) = [] ∧ rtc step d (run_timers fuel d)).
Proof.
  intros Hf. destruct (run_timers_enough fuel d Hf) as [Ht Heq].
  split; [done|]. split; [done|]. intros Hr. pose proof (reachable_inv t0 d Hr) as Hi.
  destruct (run_timers_rtc fuel d Hi) as [Hrtc Hi'].
  split; [by apply inv_no_timers|by apply timer_rtc_step].
Qed.

(** C19: The [#message-animations] style element is added once and never
    duplicated. *)
Theorem animation_style_once (t0 : Z) (d : doc) (m : jsstr) (k : msg_kind) :
  reachable t0 d → anim_styles (showMessage m k d) = 1%nat.
Proof.
  intros H. pose proof (inv_style d (reachable_inv t0 d H)). simpl.
  destruct (anim_styles d) as [|[|]]; simpl; lia.
Qed.

(** ** Witnesses *)

Definition demo_doc : doc := showMessage ⟪"Saved"⟫ Success (init_doc 0).

Lemma demo_reachable : reachable 0 demo_doc.
Proof. apply rtc_once. constructor. Qed.

Lemma at_most_one_popup_witness :
  reachable 0 demo_doc ∧ (length (body demo_doc) ≤ 1)%nat.
Proof. split; [apply demo_reachable|]. apply (at_most_one_popup 0); apply demo_reachable. Defined.

Lemma popup_lifetime_witness :
  reachable 0 demo_doc ∧ mk_popup 0 ⟪"Saved"⟫ Success 0 ∈ body demo_doc ∧
  clock demo_doc ≤ born (mk_popup 0 ⟪"Saved"⟫ Success 0) + popup_delay.
Proof.
  split; [apply demo_reachable|]. split; [simpl; set_solver|].
  apply (popup_lifetime 0); [apply demo_reachable|simpl; set_solver].
Defined.

Lemma dismissed_never_reshown_witness :
  rtc step (init_doc 0) demo_doc ∧ mk_popup 0 ⟪"Saved"⟫ Success 0 ∈ body demo_doc ∧
  (mk_popup 0 ⟪"Saved"⟫ Success 0 ∈ body (init_doc 0) ∨
   (next_pid (init_doc 0) ≤ pid (mk_popup 0 ⟪"Saved"⟫ Success 0))%nat).
Proof.
  split; [apply demo_reachable|]. split; [simpl; set_solver|].
  apply dismissed_never_reshown with demo_doc; [apply demo_reachable|simpl; set_solver].
Defined.

Lemma popups_dismissed_within_delay_witness :
  reachable 0 demo_doc ∧
  ∃ d', rtc timer_step demo_doc d' ∧ body d' = [] ∧ clock d' ≤ clock demo_doc + popup_delay.
Proof. split; [apply demo_reachable|]. apply (popups_dismissed_within_delay 0); apply demo_reachable. Defined.

Lemma timers_terminate_witness :
  (length (timers demo_doc) ≤ 3)%nat ∧ reachable 0 demo_doc ∧
  body (run_timers 3 demo_doc) = [] ∧ clock (run_timers 3 demo_doc) = 5000.
Proof.
  split; [simpl; lia|]. split; [exact demo_reachable|]. split; [|reflexivity].
  apply (timers_terminate 0 demo_doc 3); [simpl; lia|exact demo_reachable].
Defined.

Lemma animation_style_once_witness :
  reachable 0 demo_doc ∧ anim_styles (showMessage ⟪"Again"⟫ Error demo_doc) = 1%nat.
Proof. split; [apply demo_reachable|]. apply (animation_style_once 0); apply demo_reachable. Defined.

End Presenter.
