(* ===== verification/FormData.v ===== *)
(** * Reading and resetting a form (lines 40-41, 52, 63-64, 75)

    The submit handlers build [data] with
    [Object.fromEntries(new FormData(form))] and clear the form with
    [form.reset()] after a successful submission.  A form is the list of its
    controls in tree order.  [form_data] is the entry list of [FormData]:
    one [(name, value)] pair per enabled control with a non-empty name, a
    checkbox only when it is checked (its value, ["on"] unless the markup
    says otherwise).  [fromEntries] inserts the pairs in order, so a later
    entry overwrites an earlier one with the same name.  [reset] puts every
    control back to its default value and default checkedness. *)

From stdpp Require Import base list gmap strings.
From S2P Require Import Prelude Feedback.

Module FormData.

Inductive control_kind := TextLike | Checkbox.

Record control := mk_control {
  cname : jsstr;
  ckind : control_kind;
  cvalue : jsstr;
  cchecked : bool;
  cdefault_value : jsstr;
  cdefault_checked : bool;
  cdisabled : bool
}.

#[export] Instance control_kind_eq_dec : EqDecision control_kind.
Proof. solve_decision. Defined.

#[export] Instance control_eq_dec : EqDecision control.
Proof. solve_decision. Defined.

Abbreviation form := (list control).

(** The entry a control contributes to [new FormData(form)], if any. *)
Definition entry_of (c : control) : option (jsstr * jsstr) :=
  if cdisabled c || bool_decide (cname c = []) then None
  else match ckind c with
       | TextLike => Some (cname c, cvalue c)
       | Checkbox => if cchecked c then Some (cname c, cvalue c) else None
       end.

Definition form_data (f : form) : list (jsstr * jsstr) := omap entry_of f.

(** [Object.fromEntries(entries)]. *)
Definition fromEntries (es : list (jsstr * jsstr)) : form_object :=
  fold_left (λ m '(k, v), <[k := v]> m) es ∅.

Definition reset_control (c : control) : control :=
  {| cname := cname c; ckind := ckind c; cvalue := cdefault_value c;
     cchecked := cdefault_checked c; cdefault_value := cdefault_value c;
     cdefault_checked := cdefault_checked c; cdisabled := cdisabled c |}.

(** [form.reset()]. *)
Definition reset (f : form) : form := map reset_control f.

(** The value of the last entry named [k]. *)
Definition last_value (k : jsstr) (es : list (jsstr * jsstr)) : option jsstr :=
  snd <$> last (filter (λ e, e.1 = k) es).

(** ** Lemmas *)

Lemma fold_insert_lookup (es : list (jsstr * jsstr)) (m : form_object) (k : jsstr) :
  fold_left (λ m '(k, v), <[k := v]> m) es m !! k =
  match last_value k es with Some v => Some v | None => m !! k end.
Proof.
  revert m. induction es as [|[k' v] es IH]; intros m; simpl; [done|].
  rewrite IH. unfold last_value. rewrite filter_cons. simpl.
  destruct (decide (k' = k)) as [->|Hne].
  - destruct (last (filter (λ e, e.1 = k) es)) eqn:E; simpl.
    + rewrite last_cons, E. done.
    + rewrite last_cons, E. simpl. by rewrite lookup_insert_eq.
  - destruct (last (filter (λ e, e.1 = k) es)); simpl; [done|].
    by rewrite lookup_insert_ne.
Qed.

(** [Object.fromEntries] keeps, for each name, the value of the last entry
    with that name; names with no entry are absent ([undefined]). *)
Lemma fromEntries_lookup (es : list (jsstr * jsstr)) (k : jsstr) :
  fromEntries es !! k = last_value k es.
Proof.
  unfold fromEntries. rewrite fold_insert_lookup, lookup_empty.
  by destruct (last_value k es).
Qed.

Lemma form_data_cons (c : control) (f : form) :
  form_data (c :: f) = match entry_of c with Some p => p :: form_data f | None => form_data f end.
Proof. done. Qed.

Lemma entry_of_name (c : control) (p : jsstr * jsstr) : entry_of c = Some p → p.1 = cname c.
Proof. unfold entry_of. repeat case_match; naive_solver. Qed.

(** The value read for the name of a control [c] that no other control
    shares: [c]'s entry, if it contributes one. *)
Lemma form_data_last_value (f : form) (c : control) :
  (∀ c', c' ∈ f → cname c' = cname c → c' = c) →
  last_value (cname c) (form_data f) = if bool_decide (c ∈ f) then snd <$> entry_of c else None.
Proof.
  induction f as [|c' f IH]; intros Hu; [by rewrite bool_decide_false by apply not_elem_of_nil|].
  assert (last_value (cname c) (form_data f) =
          if bool_decide (c ∈ f) then snd <$> entry_of c else None) as IH'
    by (apply IH; intros; apply Hu; [by right|done]).
  rewrite form_data_cons. unfold last_value in *.
  destruct (decide (cname c' = cname c)) as [Hn|Hn].
  - assert (c' = c) as -> by (apply Hu; [left|done]).
    rewrite bool_decide_true by by left.
    destruct (entry_of c) as [p|] eqn:E; simpl.
    + rewrite filter_cons_True by (by rewrite (entry_of_name c p E)).
      rewrite last_cons. destruct (last (filter _ (form_data f))) eqn:L; simpl in *.
      * case_bool_decide; simpl in IH'; congruence.
      * done.
    + rewrite IH'. by case_bool_decide.
  - rewrite (bool_decide_ext (c ∈ c' :: f) (c ∈ f)) by (rewrite elem_of_cons; naive_solver).
    destruct (entry_of c') as [p|] eqn:E; simpl; [|done].
    by rewrite filter_cons_False by (by rewrite (entry_of_name c' p E)).
Qed.

(** [form.reset()] puts every control at its default, and resetting twice
    is resetting once. *)
Lemma reset_restores_defaults (f : form) :
  reset (reset f) = reset f ∧
  Forall (λ c, cvalue c = cdefault_value c ∧ cchecked c = cdefault_checked c) (reset f).
Proof.
  unfold reset. rewrite map_map. split; [done|].
  apply Forall_forall. intros c (c' & -> & _)%list_elem_of_fmap. done.
Qed.

End FormData.
