(* ===== verification/Forms.v ===== *)
(** * The submit handlers (lines 32-78)

    Each handler cancels the browser submission, reads the form into
    [data], runs its validator, and on success shows the success message and
    resets the form; on failure the validator has already shown the error
    and the form keeps what the user typed.  The handlers are written
    against the presenter interface [NotifierSpec]; their theorems then hold
    for the document presenter of [Presenter], where a submission is one
    event-loop step. *)

From stdpp Require Import base list gmap strings relations.
From Stdlib Require Import ZArith.
From S2P Require Import Prelude Feedback DateCheck Validators Presenter FormData.
Import DateCheck Validators FormData.

Module Forms.

Definition msg_appointment_success : jsstr :=
  ⟪"Appointment request submitted successfully! We will contact you within 24 hours to confirm your appointment."⟫.

Definition msg_contact_success : jsstr :=
  ⟪"Message sent successfully! We will get back to you as soon as possible."⟫.

Record page (St : Type) := mk_page {
  notifier : St;
  appointmentForm : form;
  contactForm : form
}.
Arguments mk_page {St}.
Arguments notifier {St}.
Arguments appointmentForm {St}.
Arguments contactForm {St}.

Section Handlers.
Context {St : Type} `{Notifier St}.

(** Lines 36-53. *)
Definition appointment_submit (e : env) (pg : page St) : page St :=
  let data := fromEntries (form_data (appointmentForm pg)) in
  let '(ok, s) := validateAppointmentForm e data (notifier pg) in
  if negb ok then mk_page s (appointmentForm pg) (contactForm pg)
  else mk_page (showSuccessMessage msg_appointment_success s)
         (reset (appointmentForm pg)) (contactForm pg).

(** Lines 59-76. *)
Definition contact_submit (pg : page St) : page St :=
  let data := fromEntries (form_data (contactForm pg)) in
  let '(ok, s) := validateContactForm data (notifier pg) in
  if negb ok then mk_page s (appointmentForm pg) (contactForm pg)
  else mk_page (showSuccessMessage msg_contact_success s)
         (appointmentForm pg) (reset (contactForm pg)).

(** What a submission shows: the success message, or the error message of
    the contract's reason. *)
Definition submit_message (label : jsstr → jsstr) (success : jsstr) (r : option reason) :
    jsstr * msg_kind :=
  match r with
  | None => (success, Success)
  | Some r => (reason_message label r, Error)
  end.

End Handlers.

(** ** The handlers against the presenter's contract *)

Section Outcome.
Context {St : Type} `{NotifierSpec St}.

(** C8: After a submission of the appointment form the popup on display is
    the success message when the contract accepts the form's data, and
    the error message of its reason otherwise; the form is reset exactly
    on success, and the contact form is untouched. *)
Theorem appointment_submit_outcome (e : env) (pg : page St) :
  let r := validate_appointment e (fromEntries (form_data (appointmentForm pg))) in
  displayed (notifier (appointment_submit e pg)) =
    Some (submit_message appointment_label msg_appointment_success r) ∧
  appointmentForm (appointment_submit e pg) =
    (if r is None then reset (appointmentForm pg) else appointmentForm pg) ∧
  contactForm (appointment_submit e pg) = contactForm pg.
Proof.
  unfold appointment_submit. rewrite validateAppointmentForm_run.
  destruct (validate_appointment _ _); simpl; unfold showSuccessMessage, showErrorMessage; by rewrite displayed_show.
Qed.

(** C9: After a submission of the contact form the popup on display is the
    success message or the error message of the contract's reason; the
    contact form is reset exactly on success and the appointment form is
    untouched. *)
Theorem contact_submit_outcome (pg : page St) :
  let r := validate_contact (fromEntries (form_data (contactForm pg))) in
  displayed (notifier (contact_submit pg)) =
    Some (submit_message contact_label msg_contact_success r) ∧
  contactForm (contact_submit pg) =
    (if r is None then reset (contactForm pg) else contactForm pg) ∧
  appointmentForm (contact_submit pg) = appointmentForm pg.
Proof.
  unfold contact_submit. rewrite validateContactForm_run.
  destruct (validate_contact _); simpl; unfold showSuccessMessage, showErrorMessage; by rewrite displayed_show.
Qed.

End Outcome.

(** ** The consent checkbox *)

(** C18: The handler reads consent through [new FormData(form)], which
    omits an unchecked checkbox: on a form whose only [consent] control is
    an enabled checkbox, a request that passes the other checks is accepted
    exactly when the box is checked and has a non-empty value (a checked box
    with [value=""] still counts as no consent). *)
Theorem consent_checkbox (e : env) (f : form) (c : control) :
  c ∈ f → cname c = ⟪"consent"⟫ → ckind c = Checkbox → cdisabled c = false →
  (∀ c', c' ∈ f → cname c' = ⟪"consent"⟫ → c' = c) →
  first_missing (fromEntries (form_data f)) appointment_required = None →
  isValidEmail (prop (fromEntries (form_data f)) ⟪"email"⟫) = true →
  isValidPhone (prop (fromEntries (form_data f)) ⟪"phone"⟫) = true →
  is_past_date e (prop (fromEntries (form_data f)) ⟪"preferredDate"⟫) = false →
  validate_appointment e (fromEntries (form_data f)) =
    if cchecked c && bool_decide (cvalue c ≠ []) then None else Some ConsentRequired.
Proof.
  intros Hc Hn Hk Hd Hu Hm He Hp Hpast. unfold validate_appointment.
  rewrite Hm, He, Hp, Hpast. simpl. rewrite fromEntries_lookup, <- Hn.
  rewrite form_data_last_value by (intros c' ? ?; apply Hu; congruence).
  rewrite bool_decide_true by done. unfold entry_of. rewrite Hd, Hk, Hn. simpl.
  destruct (cchecked c), (cvalue c); simpl; try done.
Qed.

(** ** The handlers on the document presenter *)

Import Presenter.

(** C20: A submission of either form is one [showMessage] call, hence one
    step of the event loop, so every property of reachable documents
    survives it. *)
Theorem submit_step (e : env) (pg : page doc) :
  step (notifier pg) (notifier (appointment_submit e pg)) ∧
  step (notifier pg) (notifier (contact_submit pg)).
Proof.
  unfold appointment_submit, contact_submit.
  rewrite validateAppointmentForm_run, validateContactForm_run.
  split; [destruct (validate_appointment _ _)|destruct (validate_contact _)]; simpl; constructor.
Qed.

(** ** Witnesses *)

Definition text (name value : jsstr) : control := mk_control name TextLike value false [] false false.

Definition consent_box (checked : bool) : control :=
  mk_control ⟪"consent"⟫ Checkbox ⟪"on"⟫ checked [] false false.

(** The appointment form, filled in, with the consent box as given. *)
Definition sample_form (checked : bool) : form :=
  [text ⟪"firstName"⟫ ⟪"Ada"⟫; text ⟪"lastName"⟫ ⟪"Lovelace"⟫;
   text ⟪"email"⟫ ⟪"ada@example.com"⟫; text ⟪"phone"⟫ ⟪"555-123-4567"⟫;
   text ⟪"appointmentType"⟫ ⟪"consultation"⟫; text ⟪"preferredDate"⟫ ⟪"2024-06-20"⟫;
   text ⟪"preferredTime"⟫ ⟪"10:00"⟫; consent_box checked].

Lemma consent_checkbox_witness :
  validate_appointment noon_east (fromEntries (form_data (sample_form false))) = Some ConsentRequired ∧
  validate_appointment noon_east (fromEntries (form_data (sample_form true))) = None.
Proof.
  split; [apply (consent_checkbox noon_east (sample_form false) (consent_box false))
         |apply (consent_checkbox noon_east (sample_form true) (consent_box true))];
    try (vm_compute; reflexivity); try (by apply (bool_decide_unpack _); vm_compute);
    intros c' Hc' Hn; repeat (apply elem_of_cons in Hc' as [->|Hc']; [done || (vm_compute in Hn; discriminate)|]);
    apply not_elem_of_nil in Hc' as [].
Defined.

End Forms.
