(* ===== verification/NavMenu.v ===== *)
(** * The mobile navigation toggle and its ARIA state (lines 1-29, 338-349)

    Two [DOMContentLoaded] handlers act on the hamburger button.  The
    first (lines 2-29), registered only when both [.hamburger] and
    [.nav-menu] exist, toggles the [active] class of both on a hamburger
    click, removes it from both on a click on a [.nav-link], and removes it
    from both on any click outside the hamburger and the menu.  The second
    (lines 338-349), registered whenever the hamburger exists, sets
    [aria-expanded="false"] and flips the attribute on every hamburger
    click.

    A click is dispatched to the listeners along its bubbling path: the
    listener of the element clicked (a nav link or the hamburger, where the
    toggle listener was registered before the ARIA listener), then the
    document's listener.  [click] composes them in that order. *)

From stdpp Require Import base list strings.
From S2P Require Import Prelude.

Module NavMenu.

(** Which parts of the page exist. *)
Record page := mk_page { has_hamburger : bool; has_navMenu : bool }.

(** Where a click lands.  A nav link may sit inside the menu or not. *)
Inductive target :=
| OnHamburger
| OnNavLink (inside_menu : bool)
| InMenu
| Outside.

#[export] Instance target_eq_dec : EqDecision target.
Proof. solve_decision. Defined.

Record state := mk_state {
  menu_active : bool;            (* navMenu.classList.contains('active') *)
  hamburger_active : bool;       (* hamburger.classList.contains('active') *)
  aria_expanded : option jsstr;  (* hamburger.getAttribute('aria-expanded') *)
  aria_label : option jsstr      (* hamburger.getAttribute('aria-label') *)
}.

(** Lines 6 and 341: which listeners are registered. *)
Definition toggle_wired (pg : page) : bool := has_hamburger pg && has_navMenu pg.
Definition aria_wired (pg : page) : bool := has_hamburger pg.

(** After both [DOMContentLoaded] handlers: lines 342-343 set the
    attributes. *)
Definition init (pg : page) : state :=
  mk_state false false (if aria_wired pg then Some ⟪"false"⟫ else None)
    (if aria_wired pg then Some ⟪"Toggle navigation menu"⟫ else None).

(** Lines 8-9: [classList.toggle('active')] on both elements. *)
Definition toggle_menu (s : state) : state :=
  mk_state (negb (menu_active s)) (negb (hamburger_active s)) (aria_expanded s) (aria_label s).

(** Lines 16-17 and 24-25: [classList.remove('active')] on both. *)
Definition close_menu (s : state) : state := mk_state false false (aria_expanded s) (aria_label s).

(** Lines 346-347: [setAttribute('aria-expanded', !isExpanded)], which
    stores the boolean as the string ["true"] or ["false"]. *)
Definition flip_aria (s : state) : state :=
  let isExpanded := bool_decide (aria_expanded s = Some ⟪"true"⟫) in
  mk_state (menu_active s) (hamburger_active s)
    (Some (if negb isExpanded then ⟪"true"⟫ else ⟪"false"⟫)) (aria_label s).

Definition in_hamburger (t : target) : bool := if t is OnHamburger then true else false.

Definition in_menu (t : target) : bool :=
  match t with OnNavLink b => b | InMenu => true | _ => false end.

(** The listeners along the bubbling path, in dispatch order. *)
Definition click (pg : page) (t : target) (s : state) : state :=
  let s1 :=
    match t with
    | OnHamburger =>
        let s' := if toggle_wired pg then toggle_menu s else s in
        if aria_wired pg then flip_aria s' else s'
    | OnNavLink _ => if toggle_wired pg then close_menu s else s
    | _ => s
    end in
  if toggle_wired pg && negb (in_hamburger t) && negb (in_menu t)
  then close_menu s1 else s1.

Definition run (pg : page) (ts : list target) : state := fold_left (λ s t, click pg t s) ts (init pg).

Definition hamburger_clicks (ts : list target) : nat :=
  length (filter (λ t, t = OnHamburger) ts).

Definition aria_str (b : bool) : jsstr := if b then ⟪"true"⟫ else ⟪"false"⟫.

(** The clicks that close the menu: on a nav link (lines 14-19) or outside
    the hamburger and the menu (lines 22-27). *)
Definition closes (t : target) : bool :=
  match t with OnNavLink _ | Outside => true | _ => false end.

(** The clicks after the last closing click. *)
Definition since_last_close (ts : list target) : list target :=
  fold_left (λ acc t, if closes t then [] else acc ++ [t]) ts [].

(** ** Lemmas *)

Lemma click_sync (pg : page) (t : target) (s : state) :
  menu_active s = hamburger_active s →
  menu_active (click pg t s) = hamburger_active (click pg t s).
Proof.
  intros H. unfold click, toggle_menu, close_menu, flip_aria.
  destruct t; repeat case_match; simpl in *; congruence.
Qed.

Lemma click_aria (pg : page) (t : target) (s : state) (b : bool) :
  aria_wired pg = true → aria_expanded s = Some (aria_str b) →
  aria_expanded (click pg t s) =
    Some (aria_str (if bool_decide (t = OnHamburger) then negb b else b)).
Proof.
  intros Hw Ha. unfold click. rewrite Hw.
  destruct t; simpl; repeat case_match; simpl; rewrite ?Ha; try done;
    unfold flip_aria; simpl; rewrite ?Ha; destruct b; done.
Qed.

Lemma fold_aria (pg : page) (ts : list target) (s : state) (b : bool) :
  aria_wired pg = true → aria_expanded s = Some (aria_str b) →
  aria_expanded (fold_left (λ s t, click pg t s) ts s) =
    Some (aria_str (xorb b (Nat.odd (hamburger_clicks ts)))).
Proof.
  revert s b. induction ts as [|t ts IH]; intros s b Hw Ha; simpl.
  - by rewrite Ha, xorb_false_r.
  - rewrite (IH _ _ Hw (click_aria pg t s b Hw Ha)). unfold hamburger_clicks.
    rewrite filter_cons. destruct (decide (t = OnHamburger)) as [->|Ht].
    + rewrite bool_decide_true by done. simpl.
      rewrite Nat.odd_succ, <- Nat.negb_odd. by destruct b, (Nat.odd _).
    + by rewrite bool_decide_false.
Qed.

Lemma click_label (pg : page) (t : target) (s : state) : aria_label (click pg t s) = aria_label s.
Proof. unfold click, toggle_menu, close_menu, flip_aria. destruct t; repeat case_match; done. Qed.

(** The label set on load is never changed by a click. *)
Lemma run_aria_label (pg : page) (ts : list target) :
  aria_label (run pg ts) = if aria_wired pg then Some ⟪"Toggle navigation menu"⟫ else None.
Proof.
  unfold run. change (if aria_wired pg then _ else _) with (aria_label (init pg)).
  generalize (init pg). induction ts as [|t ts IH]; intros s; simpl; [done|].
  by rewrite IH, click_label.
Qed.

Lemma click_menu (pg : page) (t : target) (s : state) :
  toggle_wired pg = true →
  menu_active (click pg t s) =
    if closes t then false else if bool_decide (t = OnHamburger) then negb (menu_active s) else menu_active s.
Proof. intros Hw. unfold click. rewrite Hw. destruct t; simpl; repeat case_match; done. Qed.

Lemma hamburger_clicks_snoc (ts : list target) (t : target) :
  hamburger_clicks (ts ++ [t]) = hamburger_clicks ts + if bool_decide (t = OnHamburger) then 1 else 0.
Proof.
  unfold hamburger_clicks. rewrite filter_app, length_app, filter_cons, filter_nil.
  by destruct (decide (t = OnHamburger)); [rewrite bool_decide_true|rewrite bool_decide_false].
Qed.

Lemma fold_menu (pg : page) (ts acc : list target) (s : state) :
  toggle_wired pg = true → menu_active s = Nat.odd (hamburger_clicks acc) →
  menu_active (fold_left (λ s t, click pg t s) ts s) =
    Nat.odd (hamburger_clicks (fold_left (λ acc t, if closes t then [] else acc ++ [t]) ts acc)).
Proof.
  revert s acc. induction ts as [|t ts IH]; intros s acc Hw Hs; simpl; [done|].
  apply IH; [done|]. rewrite click_menu by done.
  destruct (closes t); [done|]. rewrite hamburger_clicks_snoc, Hs.
  case_bool_decide; [|by rewrite Nat.add_0_r].
  by rewrite Nat.add_1_r, Nat.odd_succ, <- Nat.negb_odd.
Qed.

(** ** Properties *)

(** C26: The [active] classes of the hamburger and the menu never disagree. *)
Theorem classes_in_sync (pg : page) (ts : list target) :
  menu_active (run pg ts) = hamburger_active (run pg ts).
Proof.
  unfold run. generalize (init pg) (eq_refl : menu_active (init pg) = hamburger_active (init pg)).
  induction ts as [|t ts IH]; intros s Hs; simpl; [done|]. by apply IH, click_sync.
Qed.

(** C25: [aria-expanded] records only the parity of the hamburger clicks: it
    ignores the nav-link and outside clicks that close the menu. *)
Theorem aria_tracks_hamburger_parity (pg : page) (ts : list target) :
  aria_wired pg = true →
  aria_expanded (run pg ts) = Some (aria_str (Nat.odd (hamburger_clicks ts))).
Proof.
  intros Hw. unfold run. rewrite (fold_aria pg ts (init pg) false Hw); [done|].
  unfold init. by rewrite Hw.
Qed.

(** C24: The menu is open exactly when the hamburger was clicked an odd
    number of times since the last click on a nav link or outside the menu;
    with C25, which counts every hamburger click, [aria-expanded] and the
    menu disagree as soon as a close follows an odd number of hamburger
    clicks. *)
Theorem menu_open_parity (pg : page) (ts : list target) :
  toggle_wired pg = true →
  menu_active (run pg ts) = Nat.odd (hamburger_clicks (since_last_close ts)).
Proof. intros Hw. by apply fold_menu. Qed.

(** ** Witnesses *)

Definition full_page : page := mk_page true true.

Lemma aria_tracks_hamburger_parity_witness :
  aria_wired full_page = true ∧
  aria_expanded (run full_page [OnHamburger; InMenu; OnNavLink true]) = Some ⟪"true"⟫.
Proof. split; [reflexivity|]. apply (aria_tracks_hamburger_parity full_page). reflexivity. Defined.

(** Open, close outside, open again: the menu is open and [aria-expanded]
    says ["false"]. *)
Lemma menu_open_parity_witness :
  toggle_wired full_page = true ∧
  menu_active (run full_page [OnHamburger; Outside; OnHamburger]) = true ∧
  aria_expanded (run full_page [OnHamburger; Outside; OnHamburger]) = Some ⟪"false"⟫.
Proof.
  split; [reflexivity|]. split; [|reflexivity].
  by rewrite (menu_open_parity full_page _ eq_refl).
Defined.

End NavMenu.
