(* ===== verification/PhoneFormat.v ===== *)
(** * The phone input formatter (lines 320-334)

    On every [input] event of an [input[type="tel"]] the handler keeps the
    digits of the value ([this.value.replace(/\D/g, '')]) and then
    - with at least six digits, applies
      [value.replace(/(\d{3})(\d{3})(\d{4})/, '($1) $2-$3')];
    - otherwise, with at least three digits, applies
      [value.replace(/(\d{3})(\d{0,3})/, '($1) $2')].
    The value is all digits at that point, so the leftmost match of either
    pattern starts at the first character: the first pattern matches only
    when ten digits are present (and leaves the digits after the tenth in
    place), the second takes three digits and up to three more, greedily.
    [format_ten] and [format_three] are these two replacements on an
    all-digit string. *)

From stdpp Require Import base list strings.
From S2P Require Import Prelude Validators.
Import Validators.

Module PhoneFormat.

(** Line 327 on an all-digit string. *)
Definition format_ten (v : jsstr) : jsstr :=
  match v with
  | a1 :: a2 :: a3 :: b1 :: b2 :: b3 :: c1 :: c2 :: c3 :: c4 :: rest =>
      ⟪"("⟫ ++ [a1; a2; a3] ++ ⟪") "⟫ ++ [b1; b2; b3] ++ ⟪"-"⟫ ++ [c1; c2; c3; c4] ++ rest
  | _ => v
  end.

(** Line 329 on an all-digit string. *)
Definition format_three (v : jsstr) : jsstr :=
  match v with
  | a1 :: a2 :: a3 :: rest => ⟪"("⟫ ++ [a1; a2; a3] ++ ⟪") "⟫ ++ take 3 rest ++ drop 3 rest
  | _ => v
  end.

(** The digits-only part of the handler, lines 326-330. *)
Definition format_digits (value : jsstr) : jsstr :=
  if 6 <=? length value then format_ten value
  else if 3 <=? length value then format_three value
  else value.

(** Lines 323-333: the new [this.value]. *)
Definition format_phone (value : jsstr) : jsstr := format_digits (strip_nondigits value).

(** ** Lemmas *)

Lemma strip_format_ten (v : jsstr) :
  Forall (λ c, is_digit c = true) v → strip_nondigits (format_ten v) = v.
Proof.
  intros Hv. unfold format_ten. repeat case_match; subst; try by apply strip_nondigits_id.
  repeat (rewrite ?strip_nondigits_app; simpl).
  repeat match goal with H : Forall _ (_ :: _) |- _ => invc H end.
  repeat match goal with H : is_digit ?c = true |- _ => rewrite H; clear H end.
  by rewrite strip_nondigits_id.
Qed.

Lemma strip_format_three (v : jsstr) :
  Forall (λ c, is_digit c = true) v → strip_nondigits (format_three v) = v.
Proof.
  intros Hv. unfold format_three. repeat case_match; subst; try by apply strip_nondigits_id.
  rewrite take_drop. simpl.
  repeat match goal with H : Forall _ (_ :: _) |- _ => invc H end.
  repeat match goal with H : is_digit ?c = true |- _ => rewrite H; clear H end.
  by rewrite strip_nondigits_id.
Qed.

Lemma strip_format_digits (v : jsstr) :
  Forall (λ c, is_digit c = true) v → strip_nondigits (format_digits v) = v.
Proof.
  intros Hv. unfold format_digits. repeat case_match;
    auto using strip_format_ten, strip_format_three, strip_nondigits_id.
Qed.

(** ** Properties *)

(** C28: Formatting keeps the digits of the value, in order, so it never
    changes the verdict of [isValidPhone]. *)
Theorem format_phone_digits (v : jsstr) :
  strip_nondigits (format_phone v) = strip_nondigits v ∧
  isValidPhone (format_phone v) = isValidPhone v.
Proof.
  unfold isValidPhone, format_phone.
  by rewrite strip_format_digits by apply strip_nondigits_all_digits.
Qed.

(** C30: With six to nine digits the ten-digit pattern does not match and the
    value is left as bare digits, although five digits are shown as
    ["(123) 45"]. *)
Theorem format_phone_six_to_nine (v : jsstr) :
  6 ≤ length (strip_nondigits v) ≤ 9 → format_phone v = strip_nondigits v.
Proof.
  unfold format_phone, format_digits. intros Hlen.
  destruct (Nat.leb_spec 6 (length (strip_nondigits v))); [|lia].
  unfold format_ten. repeat case_match; simpl in *; try done; lia.
Qed.

(** C31: Deleting the space after ["(123) "] gives ["(123)"], which is
    formatted back to ["(123) "]: the space cannot be erased. *)
Theorem format_phone_backspace (a b c : N) :
  is_digit a = true → is_digit b = true → is_digit c = true →
  format_phone (⟪"("⟫ ++ [a; b; c] ++ ⟪")"⟫) = ⟪"("⟫ ++ [a; b; c] ++ ⟪") "⟫.
Proof. intros Ha Hb Hc. unfold format_phone. simpl. by rewrite Ha, Hb, Hc. Qed.

(** ** Witnesses *)

Lemma format_phone_six_to_nine_witness :
  6 ≤ length (strip_nondigits ⟪"555-1234"⟫) ≤ 9 ∧
  format_phone ⟪"555-1234"⟫ = ⟪"5551234"⟫.
Proof. split; [simpl; lia|]. apply format_phone_six_to_nine. simpl; lia. Defined.

Lemma format_phone_backspace_witness :
  format_phone ⟪"(555)"⟫ = ⟪"(555) "⟫.
Proof. apply (format_phone_backspace 53 53 53); reflexivity. Defined.

End PhoneFormat.
