(* ===== verification/DateInput.v ===== *)
(** * The appointment date input's minimum (lines 309-318)

    On [DOMContentLoaded], when [#preferredDate] exists, the script sets
<<
    const today = new Date();
    const tomorrow = new Date(today);
    tomorrow.setDate(tomorrow.getDate() + 1);
    dateInput.setAttribute('min', tomorrow.toISOString().split('T')[0]);
>>
    [setDate(getDate() + 1)] moves one local day ahead at the same local
    time, which with a fixed offset is [now + msPerDay] ([tomorrow_ms]);
    [toISOString()] then prints that instant in UTC, and the part before
    ['T'] is its UTC calendar date ([iso_date] of the UTC day number).
    [civil_from_days] is the inverse of [DateCheck.days_from_civil], so the
    attribute can be compared with what the validator parses. *)

From stdpp Require Import base list strings.
From Stdlib Require Import ZArith Lia.
From S2P Require Import Prelude DateCheck.
Import DateCheck.

Module DateInput.

Local Open Scope Z_scope.

(** The civil date (year, month 1-12, day 1-31) of a day number. *)
Definition civil_from_days (z : Z) : Z * Z * Z :=
  let z' := z + 719468 in
  let era := z' / 146097 in
  let doe := z' - era * 146097 in
  let yoe := (doe - doe / 1460 + doe / 36524 - doe / 146096) / 365 in
  let doy := doe - (365 * yoe + yoe / 4 - yoe / 100) in
  let mp := (5 * doy + 2) / 153 in
  let d := doy - (153 * mp + 2) / 5 + 1 in
  let m := if mp <? 10 then mp + 3 else mp - 9 in
  (yoe + era * 400 + (if m <=? 2 then 1 else 0), m, d).

Definition digit_unit (k : Z) : N := Z.to_N (48 + k).

Definition pad2 (n : Z) : jsstr := [digit_unit (n / 10); digit_unit (n mod 10)].

Definition pad4 (n : Z) : jsstr :=
  [digit_unit (n / 1000); digit_unit ((n / 100) mod 10);
   digit_unit ((n / 10) mod 10); digit_unit (n mod 10)].

(** [date.toISOString().split('T')[0]] for a date on UTC day [D], for the
    years 0000-9999 that [toISOString] prints with four digits. *)
Definition iso_date (D : Z) : jsstr :=
  let '(y, m, d) := civil_from_days D in
  pad4 y ++ ⟪"-"⟫ ++ pad2 m ++ ⟪"-"⟫ ++ pad2 d.

Definition year_of (D : Z) : Z := fst (fst (civil_from_days D)).

(** Lines 312-314. *)
Definition tomorrow_ms (e : env) : Z := now_ms e + msPerDay.

(** The UTC day number of a time value. *)
Definition utc_day (t : Z) : Z := t / msPerDay.

Definition min_day (e : env) : Z := utc_day (tomorrow_ms e).

(** Line 316: the value given to [setAttribute('min', ...)]. *)
Definition min_attribute (e : env) : jsstr := iso_date (min_day e).

(** The local time of day of [new Date()], in ms. *)
Definition local_time_of_day (e : env) : Z := (now_ms e + tz_offset_ms e) mod msPerDay.

(** Integer division and remainder by constants, for [lia]. *)
Ltac zdiv := Z.to_euclidean_division_equations; lia.

(** ** Lemmas *)

Lemma civil_from_days_spec (z : Z) :
  let '(y, m, d) := civil_from_days z in
  days_from_civil y m d = z ∧ 1 <= m <= 12 ∧ 1 <= d <= 31.
Proof.
  unfold civil_from_days. cbv zeta.
  remember (z + 719468) as z'. remember (z' / 146097) as era.
  remember (z' - era * 146097) as doe.
  assert (0 <= doe < 146097) by (subst; zdiv).
  remember ((doe - doe / 1460 + doe / 36524 - doe / 146096) / 365) as yoe.
  assert (0 <= yoe <= 399) by (subst yoe; zdiv).
  remember (doe - (365 * yoe + yoe / 4 - yoe / 100)) as doy.
  assert (0 <= doy <= 365) by (subst doy yoe; zdiv).
  remember ((5 * doy + 2) / 153) as mp.
  assert (0 <= mp <= 11) by (subst mp; zdiv).
  assert (1 <= doy - (153 * mp + 2) / 5 + 1 <= 31) by (subst mp; zdiv).
  unfold days_from_civil. cbv zeta.
  destruct (Z.ltb_spec mp 10).
  - destruct (Z.leb_spec (mp + 3) 2); [lia|].
    replace (yoe + era * 400 + 0) with (yoe + era * 400) by lia.
    assert ((yoe + era * 400) / 400 = era) as -> by zdiv.
    assert ((mp + 3 + 9) mod 12 = mp) as -> by zdiv.
    split; [|lia]. replace (yoe + era * 400 - era * 400) with yoe by lia. lia.
  - destruct (Z.leb_spec (mp - 9) 2); [|lia].
    replace (yoe + era * 400 + 1 - 1) with (yoe + era * 400) by lia.
    assert ((yoe + era * 400) / 400 = era) as -> by zdiv.
    assert ((mp - 9 + 9) mod 12 = mp) as -> by zdiv.
    split; [|lia]. replace (yoe + era * 400 - era * 400) with yoe by lia. lia.
Qed.

Lemma digit_unit_ok (k : Z) :
  0 <= k <= 9 → is_digit (digit_unit k) = true ∧ Z.of_N (digit_unit k) - 48 = k.
Proof.
  intros Hk. unfold is_digit, digit_unit. rewrite Z2N.id by lia. split; [|lia].
  apply andb_true_iff; split; apply N.leb_le; lia.
Qed.

Lemma parse_pad4 (n : Z) : 0 <= n <= 9999 → parse_digits (pad4 n) = Some n.
Proof.
  intros Hn. unfold parse_digits, pad4.
  destruct (digit_unit_ok (n / 1000)) as [H1 E1]; [zdiv|].
  destruct (digit_unit_ok ((n / 100) mod 10)) as [H2 E2]; [zdiv|].
  destruct (digit_unit_ok ((n / 10) mod 10)) as [H3 E3]; [zdiv|].
  destruct (digit_unit_ok (n mod 10)) as [H4 E4]; [zdiv|].
  simpl. rewrite H1, H2, H3, H4, E1, E2, E3, E4. simpl. f_equal. zdiv.
Qed.

Lemma parse_pad2 (n : Z) : 0 <= n <= 99 → parse_digits (pad2 n) = Some n.
Proof.
  intros Hn. unfold parse_digits, pad2.
  destruct (digit_unit_ok (n / 10)) as [H1 E1]; [zdiv|].
  destruct (digit_unit_ok (n mod 10)) as [H2 E2]; [zdiv|].
  simpl. rewrite H1, H2, E1, E2. simpl. f_equal. zdiv.
Qed.

(** MakeDay's day-of-month offset, as [date_value] applies it. *)
Lemma days_from_civil_day (y m d : Z) :
  days_from_civil y m 1 + (d - 1) = days_from_civil y m d.
Proof. unfold days_from_civil. cbv zeta. lia. Qed.

Lemma parse_date_iso (y m d : Z) :
  parse_date (pad4 y ++ ⟪"-"⟫ ++ pad2 m ++ ⟪"-"⟫ ++ pad2 d) = date_value (pad4 y) (pad2 m) (pad2 d).
Proof. reflexivity. Qed.

(** ** Properties *)

(** The date part of [toISOString()] is read back by [new Date(s)] as
    midnight UTC of the same day, for the four-digit years. *)
Lemma iso_date_roundtrip (D : Z) :
  0 <= year_of D <= 9999 → parse_date (iso_date D) = Some (D * msPerDay).
Proof.
  unfold iso_date, year_of. pose proof (civil_from_days_spec D) as Hs.
  destruct (civil_from_days D) as [[y m] d]. cbv beta iota. intros Hy. simpl in Hy.
  destruct Hs as (Hz & Hm & Hd).
  rewrite parse_date_iso. unfold date_value.
  rewrite parse_pad4, !parse_pad2 by lia.
  replace ((1 <=? m) && (m <=? 12) && (1 <=? d) && (d <=? 31)) with true
    by (symmetry; repeat rewrite andb_true_iff; rewrite !Z.leb_le; lia).
  by rewrite days_from_civil_day, Hz.
Qed.

(** C32: The date the input offers as its minimum is never refused by the
    validator: read back by [new Date], the [min] attribute is not before
    [today], in every time zone and whatever the engine's fallback parser. *)
Theorem min_attribute_accepted (e : env) :
  0 <= year_of (min_day e) <= 9999 → is_past_date e (min_attribute e) = false.
Proof.
  intros Hy. unfold min_attribute. rewrite (is_past_date_day e _ _ (iso_date_roundtrip _ Hy)).
  apply Z.ltb_ge. unfold min_day, utc_day, tomorrow_ms, local_day, msPerDay. zdiv.
Qed.

(** C34: West of UTC, late in the local evening, [toISOString] is already
    on the next UTC day, and the minimum skips tomorrow. *)
Theorem min_day_west_evening (e : env) :
  - msPerDay < tz_offset_ms e < 0 →
  msPerDay + tz_offset_ms e <= local_time_of_day e →
  min_day e = local_day e + 2.
Proof.
  unfold min_day, utc_day, tomorrow_ms, local_day, local_time_of_day, msPerDay.
  intros Hoff Htod. zdiv.
Qed.

(** C35: East of UTC, early in the local morning, [toISOString] is still
    on the previous UTC day, and the minimum is today. *)
Theorem min_day_east_morning (e : env) :
  0 < tz_offset_ms e < msPerDay →
  local_time_of_day e < tz_offset_ms e →
  min_day e = local_day e.
Proof.
  unfold min_day, utc_day, tomorrow_ms, local_day, local_time_of_day, msPerDay.
  intros Hoff Htod. zdiv.
Qed.

(** C36: For any offset within a day, the minimum is today, tomorrow or
    the day after; at UTC it is exactly tomorrow, while the validator
    accepts today. *)
Theorem min_day_bounds (e : env) :
  - msPerDay < tz_offset_ms e < msPerDay →
  local_day e <= min_day e <= local_day e + 2 ∧
  (tz_offset_ms e = 0 → min_day e = local_day e + 1).
Proof.
  unfold min_day, utc_day, tomorrow_ms, local_day, msPerDay. intros Hoff.
  split; [zdiv|]. intros H0. rewrite H0. zdiv.
Qed.

(** ** Witnesses *)

(** 2024-06-15 20:00 in UTC-5, and 06:00 in UTC+10. *)
Definition evening_west : env := mk_env (1718409600000 + 90000000) (-18000000) no_fallback.
Definition morning_east : env := mk_env (1718409600000 - 14400000) 36000000 no_fallback.

Lemma min_attribute_accepted_witness :
  0 <= year_of (min_day morning_east) <= 9999 ∧
  is_past_date morning_east (min_attribute morning_east) = false.
Proof.
  assert (0 <= year_of (min_day morning_east) <= 9999) as Hy by (vm_compute; split; discriminate).
  split; [exact Hy|]. exact (min_attribute_accepted morning_east Hy).
Defined.

Lemma min_day_west_evening_witness :
  min_day evening_west = local_day evening_west + 2 ∧
  min_attribute evening_west = ⟪"2024-06-17"⟫.
Proof.
  split; [|vm_compute; reflexivity].
  apply min_day_west_evening; vm_compute; try split; (reflexivity || discriminate).
Defined.

Lemma min_day_east_morning_witness :
  min_day morning_east = local_day morning_east ∧
  min_attribute morning_east = ⟪"2024-06-15"⟫.
Proof.
  split; [|vm_compute; reflexivity].
  apply min_day_east_morning; vm_compute; try split; (reflexivity || discriminate).
Defined.

Lemma min_day_bounds_witness :
  (local_day evening_west <= min_day evening_west <= local_day evening_west + 2) ∧
  min_day (mk_env (1718409600000 + 43200000) 0 no_fallback) = local_day (mk_env (1718409600000 + 43200000) 0 no_fallback) + 1.
Proof.
  split; [apply min_day_bounds; vm_compute; split; reflexivity|].
  apply min_day_bounds; [vm_compute; split; reflexivity|reflexivity].
Defined.

End DateInput.
