(* ===== verification/Observers.v ===== *)
(** * The intersection observers: fade-in cards and lazy images
      (lines 258-279 and 386-405)

    Both handlers create an [IntersectionObserver] whose callback walks
    the entries it is given and, for each entry that [isIntersecting],
    applies an effect to the target and calls [observer.unobserve(target)]:
    the fade-in observer adds the class [fade-in-up]; the lazy-image
    observer sets [img.src = img.dataset.src] and removes [data-src].

    The section [Observer] models such an observer for any effect: the
    elements' state, the set of observed targets, and the log of effects in
    the order they ran.  The browser queues an entry while the target is
    observed and hands the queued entries to the callback later, in one
    batch; [unobserve] removes the target but not the entries already
    queued.  A batch is therefore a list of entries for targets observed
    when it was built ([deliverable]), and may hold several entries for one
    target when its intersection changed several times before the callback
    ran. *)

From stdpp Require Import base list gmap strings relations.
From S2P Require Import Prelude.

Module Observers.

Section Observer.
Context {E : Type} (effect : nat → E → E).

Record obs_state := mk_obs {
  elems : E;
  observed : gset nat;
  log : list nat
}.

(** One entry of [entries.forEach(entry => ...)]. *)
Definition handle_entry (st : obs_state) (entry : nat * bool) : obs_state :=
  let '(i, isIntersecting) := entry in
  if isIntersecting
  then mk_obs (effect i (elems st)) (observed st ∖ {[i]}) (log st ++ [i])
  else st.

(** The observer callback on one batch of entries. *)
Definition callback (entries : list (nat * bool)) (st : obs_state) : obs_state :=
  fold_left handle_entry entries st.

Definition deliverable (st : obs_state) (entries : list (nat * bool)) : Prop :=
  Forall (λ e, e.1 ∈ observed st) entries.

(** The targets of the intersecting entries of a batch. *)
Definition intersecting (entries : list (nat * bool)) : list nat :=
  (λ e, e.1) <$> filter (λ e, e.2 = true) entries.

Inductive step : obs_state → obs_state → Prop :=
| step_deliver st entries :
    deliverable st entries → step st (callback entries st).

(** The invariant: no effect ran twice, and a target whose effect ran is
    no longer observed. *)
Definition obs_inv (st : obs_state) : Prop :=
  NoDup (log st) ∧ ∀ i, i ∈ log st → i ∉ observed st.

Lemma callback_app (es1 es2 : list (nat * bool)) (st : obs_state) :
  callback (es1 ++ es2) st = callback es2 (callback es1 st).
Proof. unfold callback. by rewrite fold_left_app. Qed.

Lemma callback_log (entries : list (nat * bool)) (st : obs_state) :
  log (callback entries st) = log st ++ intersecting entries.
Proof.
  revert st. induction entries as [|[i b] es IH]; intros st; simpl.
  - by rewrite app_nil_r.
  - rewrite IH. unfold intersecting. rewrite filter_cons.
    destruct b; simpl; [by rewrite <- app_assoc|done].
Qed.


(** A batch whose intersecting entries name distinct targets. *)
Definition well_formed (st : obs_state) (entries : list (nat * bool)) : Prop :=
  deliverable st entries ∧ NoDup (intersecting entries).

Inductive wf_step : obs_state → obs_state → Prop :=
| wf_deliver st entries :
    well_formed st entries → wf_step st (callback entries st).

(** Any property that each intersecting entry on an observed target
    preserves holds after a batch with distinct, observed targets. *)
Lemma callback_preserves (P : obs_state → Prop) :
  (∀ st i, P st → i ∈ observed st → P (handle_entry st (i, true))) →
  ∀ entries st, P st → NoDup (intersecting entries) →
  Forall (λ i, i ∈ observed st) (intersecting entries) → P (callback entries st).
Proof.
  intros HP entries. induction entries as [|[i b] es IH]; intros st Hst Hnd Hobs; [done|].
  unfold intersecting in *. rewrite filter_cons in Hnd, Hobs.
  destruct b; simpl in *; [|by apply IH].
  apply NoDup_cons in Hnd as [Hni Hnd]. apply Forall_cons in Hobs as [Hi Hobs].
  apply IH; [by apply HP|done|].
  apply Forall_forall. intros j Hj. rewrite Forall_forall in Hobs.
  assert (j ≠ i) by (intros ->; contradiction). set_solver.
Qed.

Lemma deliverable_intersecting (st : obs_state) (entries : list (nat * bool)) :
  deliverable st entries → Forall (λ i, i ∈ observed st) (intersecting entries).
Proof.
  unfold deliverable, intersecting. rewrite !Forall_forall. intros H i.
  rewrite list_elem_of_fmap. intros (e & -> & [_ He]%list_elem_of_filter). by apply H.
Qed.

Lemma obs_inv_entry (st : obs_state) (i : nat) :
  obs_inv st → i ∈ observed st → obs_inv (handle_entry st (i, true)).
Proof.
  intros [Hnd Hlog] Hi. split; simpl.
  - apply NoDup_app. split; [done|]. split; [|apply NoDup_singleton].
    intros j Hj Hji%list_elem_of_singleton. subst. by apply (Hlog _ Hj).
  - intros j [Hj|Hji%list_elem_of_singleton]%elem_of_app; [|subst; set_solver].
    specialize (Hlog j Hj). set_solver.
Qed.

Lemma wf_step_inv (st st' : obs_state) : wf_step st st' → obs_inv st → obs_inv st'.
Proof.
  destruct 1 as [st entries [Hdel Hnd]]. intros Hi.
  apply callback_preserves; auto using obs_inv_entry, deliverable_intersecting.
Qed.

(** C37: When every batch names each target at most once among its
    intersecting entries, each element's effect runs at most once and an
    element whose effect ran is no longer observed. *)
Theorem observer_effect_once (st0 st : obs_state) :
  log st0 = [] → rtc wf_step st0 st →
  NoDup (log st) ∧ ∀ i, i ∈ log st → i ∉ observed st.
Proof.
  intros Hl Hr. assert (obs_inv st0) as Hi by (split; rewrite Hl; [constructor|set_solver]).
  clear Hl. induction Hr as [|x y z Hs _ IH]; [done|]. exact (IH (wf_step_inv x y Hs Hi)).
Qed.

End Observer.

Arguments obs_state E : clear implicits.
Arguments mk_obs {E}.

(** ** The lazy-image observer (lines 387-405) *)

Record img := mk_img { src : option jsstr; data_src : option jsstr }.

(** [img.src = img.dataset.src; img.removeAttribute('data-src')].  When
    [data-src] is already gone, [dataset.src] is [undefined] and the
    assignment stores the string ["undefined"]. *)
Definition load_image (i : nat) (imgs : list img) : list img :=
  match imgs !! i with
  | Some im => <[i := mk_img (Some (default ⟪"undefined"⟫ (data_src im))) None]> imgs
  | None => imgs
  end.

(** [document.querySelectorAll('img[data-src]')], observed when there is
    at least one. *)
Definition lazy_init (imgs : list img) : obs_state (list img) :=
  mk_obs imgs (list_to_set (filter (λ i, is_Some (imgs !! i ≫= data_src)) (seq 0 (length imgs)))) [].

(** ** The fade-in observer (lines 259-279) *)

Definition fade_class (cls : gset jsstr) : gset jsstr := {[⟪"fade-in-up"⟫]} ∪ cls.

(** [entry.target.classList.add('fade-in-up')] on the card [i]. *)
Definition add_fade_in (i : nat) (cards : list (gset jsstr)) : list (gset jsstr) :=
  alter fade_class i cards.

Definition fade_init (cards : list (gset jsstr)) : obs_state (list (gset jsstr)) :=
  mk_obs cards (list_to_set (seq 0 (length cards))) [].

(** ** Lemmas on the two observers *)

Lemma lazy_init_observed (imgs : list img) (i : nat) :
  i ∈ observed (lazy_init imgs) ↔ is_Some (imgs !! i ≫= data_src).
Proof.
  unfold lazy_init; simpl. rewrite elem_of_list_to_set, list_elem_of_filter, elem_of_seq.
  split; [naive_solver|]. intros [u Hu]. split; [by exists u|].
  destruct (imgs !! i) eqn:Hi; [|done]. apply lookup_lt_Some in Hi. lia.
Qed.

(** What the lazy-image observer keeps: an observed image is untouched and
    still has its [data-src]; a loaded image shows its original [data-src]
    and has none left. *)
Definition lazy_inv (imgs0 : list img) (st : obs_state (list img)) : Prop :=
  (∀ i, i ∈ observed st → elems st !! i = imgs0 !! i ∧ is_Some (imgs0 !! i ≫= data_src)) ∧
  (∀ i, i ∈ log st → ∃ im u, imgs0 !! i = Some im ∧ data_src im = Some u ∧
                              elems st !! i = Some (mk_img (Some u) None)).

Lemma lazy_inv_entry (imgs0 : list img) (st : obs_state (list img)) (i : nat) :
  lazy_inv imgs0 st → i ∈ observed st →
  lazy_inv imgs0 (handle_entry load_image st (i, true)).
Proof.
  intros [Hobs Hlog] Hi. destruct (Hobs i Hi) as [Hel [u Hu]].
  destruct (imgs0 !! i) as [im|] eqn:Him; simpl in Hu; [|done].
  assert (elems (handle_entry load_image st (i, true)) =
          <[i := mk_img (Some u) None]> (elems st)) as Hnew.
  { simpl. unfold load_image. by rewrite Hel, Hu. }
  assert (i < length (elems st)) as Hlt by (apply lookup_lt_is_Some; by rewrite Hel).
  split; rewrite Hnew; simpl.
  - intros j Hj. assert (j ≠ i) by set_solver.
    rewrite list_lookup_insert_ne by done. apply Hobs. set_solver.
  - intros j [Hj|Hji%list_elem_of_singleton]%elem_of_app.
    + destruct (decide (j = i)) as [->|Hne].
      * exists im, u. by rewrite list_lookup_insert_eq.
      * destruct (Hlog j Hj) as (im' & u' & ?). exists im', u'.
        by rewrite list_lookup_insert_ne by done.
    + subst. exists im, u. by rewrite list_lookup_insert_eq.
Qed.

Lemma lazy_inv_step (imgs0 : list img) (st st' : obs_state (list img)) :
  wf_step load_image st st' → lazy_inv imgs0 st → lazy_inv imgs0 st'.
Proof.
  destruct 1 as [st entries [Hdel Hnd]]. intros Hi.
  apply callback_preserves; auto using lazy_inv_entry, deliverable_intersecting.
Qed.

Lemma lazy_inv_init (imgs : list img) : lazy_inv imgs (lazy_init imgs).
Proof.
  split; [|intros i Hi; inversion Hi]. intros i Hi. split; [done|]. by apply lazy_init_observed.
Qed.

Lemma fade_class_idem (cls : gset jsstr) : fade_class (fade_class cls) = fade_class cls.
Proof. unfold fade_class. set_solver. Qed.

Lemma fade_entry_lookup (j i : nat) (cards : list (gset jsstr)) :
  add_fade_in j cards !! i =
    if decide (i = j) then fade_class <$> cards !! i else cards !! i.
Proof.
  unfold add_fade_in. destruct (decide (i = j)) as [->|Hne]; [by rewrite list_lookup_alter_eq|].
  by rewrite list_lookup_alter_ne.
Qed.

(** The fade-in effect on a batch: a card gets the class once for any
    number of intersecting entries. *)
Lemma fade_callback_lookup (entries : list (nat * bool)) (st : obs_state (list (gset jsstr))) (i : nat) :
  elems (callback add_fade_in entries st) !! i =
    if bool_decide (i ∈ intersecting entries)
    then fade_class <$> elems st !! i else elems st !! i.
Proof.
  revert st. induction entries as [|[j b] es IH]; intros st; [done|].
  unfold callback in *; simpl. rewrite IH. unfold intersecting; rewrite filter_cons.
  destruct b; simpl; [|done]. rewrite fade_entry_lookup.
  destruct (decide (i = j)) as [->|Hne].
  - rewrite (bool_decide_eq_true_2 (j ∈ _ :: _)) by apply list_elem_of_here.
    destruct (elems st !! j); simpl; [|by destruct (bool_decide _)].
    destruct (bool_decide _); [|done]. by rewrite fade_class_idem.
  - assert (i ∈ j :: intersecting es ↔ i ∈ intersecting es) as Hiff
      by (rewrite elem_of_cons; naive_solver).
    unfold intersecting in Hiff. by rewrite (bool_decide_ext _ _ Hiff).
Qed.

Lemma fade_callback_length (entries : list (nat * bool)) (st : obs_state (list (gset jsstr))) :
  length (elems (callback add_fade_in entries st)) = length (elems st).
Proof.
  revert st. induction entries as [|[j b] es IH]; intros st; [done|].
  unfold callback in *; simpl. rewrite IH. destruct b; simpl; [|done].
  unfold add_fade_in. apply length_alter.
Qed.

Lemma lazy_inv_rtc (imgs0 : list img) (st st' : obs_state (list img)) :
  rtc (wf_step load_image) st st' → lazy_inv imgs0 st → lazy_inv imgs0 st'.
Proof. induction 1; eauto using lazy_inv_step. Qed.

(** The state of the fade-in cards after any sequence of batches. *)
Definition fade_inv (cards : list (gset jsstr)) (st : obs_state (list (gset jsstr))) : Prop :=
  length (elems st) = length cards ∧
  ∀ i, elems st !! i = if bool_decide (i ∈ log st) then fade_class <$> cards !! i else cards !! i.

Lemma fade_inv_step (cards : list (gset jsstr)) (st st' : obs_state (list (gset jsstr))) :
  step add_fade_in st st' → fade_inv cards st → fade_inv cards st'.
Proof.
  destruct 1 as [st entries _]. intros [Hlen Hlk]. split; [by rewrite fade_callback_length|].
  intros i. rewrite fade_callback_lookup, callback_log, Hlk.
  destruct (cards !! i); repeat case_bool_decide; simpl; rewrite ?fade_class_idem;
    try done; exfalso; set_solver.
Qed.

Lemma fade_inv_rtc (cards : list (gset jsstr)) (st st' : obs_state (list (gset jsstr))) :
  rtc (step add_fade_in) st st' → fade_inv cards st → fade_inv cards st'.
Proof. induction 1; eauto using fade_inv_step. Qed.





(** ** Properties *)

(** C38: Along any run of the lazy-image observer whose batches name each
    image at most once, a loaded image shows the URL its [data-src] held on
    page load and has no [data-src] left, and an image still observed is
    untouched. *)
Theorem lazy_image_loaded (imgs : list img) (st : obs_state (list img)) :
  rtc (wf_step load_image) (lazy_init imgs) st →
  (∀ i, i ∈ log st → ∃ im u, imgs !! i = Some im ∧ data_src im = Some u ∧
                              elems st !! i = Some (mk_img (Some u) None)) ∧
  (∀ i, i ∈ observed st → elems st !! i = imgs !! i).
Proof.
  intros Hr. destruct (lazy_inv_rtc imgs _ _ Hr (lazy_inv_init imgs)) as [Hobs Hlog].
  split; [done|]. intros i Hi. apply Hobs, Hi.
Qed.

(** C39: When one batch holds two intersecting entries for an image (it
    entered, left and entered the viewport before the callback ran), the
    second entry finds [data-src] already removed and sets [src] to
    ["undefined"]: the image is loaded twice and ends broken. *)
Theorem lazy_duplicate_entry (imgs : list img) (i : nat) (s : option jsstr) (u : jsstr) :
  imgs !! i = Some (mk_img s (Some u)) →
  deliverable (lazy_init imgs) [(i, true); (i, false); (i, true)] ∧
  log (callback load_image [(i, true); (i, false); (i, true)] (lazy_init imgs)) = [i; i] ∧
  elems (callback load_image [(i, true); (i, false); (i, true)] (lazy_init imgs)) !! i =
    Some (mk_img (Some ⟪"undefined"⟫) None).
Proof.
  intros Hi. assert (i ∈ observed (lazy_init imgs)) as Hobs
    by (apply lazy_init_observed; rewrite Hi; by eexists).
  assert (i < length imgs) as Hlt by (apply lookup_lt_is_Some; by rewrite Hi).
  split; [repeat constructor; done|]. split; [done|].
  simpl. unfold load_image. rewrite Hi; simpl.
  rewrite list_lookup_insert_eq by done; simpl.
  rewrite list_lookup_insert_eq; [done|]. by rewrite length_insert.
Qed.

(** C40: The fade-in observer is right for any batches, duplicates
    included: after any run from page load, a card carries [fade-in-up]
    exactly when it was logged as intersecting, and is otherwise as
    loaded. *)
Theorem fade_in_run (cards : list (gset jsstr)) (st : obs_state (list (gset jsstr))) :
  rtc (step add_fade_in) (fade_init cards) st →
  length (elems st) = length cards ∧
  ∀ i, elems st !! i = if bool_decide (i ∈ log st) then fade_class <$> cards !! i else cards !! i.
Proof. intros Hr. apply (fade_inv_rtc cards _ _ Hr). split; [done|]. intros i. rewrite bool_decide_false; [done|]. apply not_elem_of_nil. Qed.


(** ** Witnesses *)

(** An image waiting to load and one already loaded. *)
Definition sample_imgs : list img :=
  [mk_img None (Some ⟪"a.jpg"⟫); mk_img (Some ⟪"b.jpg"⟫) None].

Lemma observer_effect_once_witness :
  log (lazy_init sample_imgs) = [] ∧
  rtc (wf_step load_image) (lazy_init sample_imgs) (callback load_image [(0, true)] (lazy_init sample_imgs)) ∧
  NoDup (log (callback load_image [(0, true)] (lazy_init sample_imgs))).
Proof.
  assert (rtc (wf_step load_image) (lazy_init sample_imgs)
            (callback load_image [(0, true)] (lazy_init sample_imgs))) as Hr.
  { apply rtc_once. constructor. split; [apply (bool_decide_unpack _); vm_compute; reflexivity|].
    repeat constructor; set_solver. }
  split; [reflexivity|]. split; [exact Hr|].
  exact (proj1 (observer_effect_once load_image (lazy_init sample_imgs) _ eq_refl Hr)).
Defined.

Lemma lazy_image_loaded_witness :
  rtc (wf_step load_image) (lazy_init sample_imgs) (callback load_image [(0, true)] (lazy_init sample_imgs)) ∧
  elems (callback load_image [(0, true)] (lazy_init sample_imgs)) !! 0 = Some (mk_img (Some ⟪"a.jpg"⟫) None).
Proof.
  assert (rtc (wf_step load_image) (lazy_init sample_imgs)
            (callback load_image [(0, true)] (lazy_init sample_imgs))) as Hr.
  { apply rtc_once. constructor. split; [apply (bool_decide_unpack _); vm_compute; reflexivity|].
    repeat constructor; set_solver. }
  split; [exact Hr|].
  destruct (proj1 (lazy_image_loaded _ _ Hr) 0 ltac:(vm_compute; left)) as (im & u & Him & Hu & ->).
  vm_compute in Him. injection Him as <-. vm_compute in Hu. by injection Hu as <-.
Defined.

Lemma lazy_duplicate_entry_witness :
  sample_imgs !! 0 = Some (mk_img None (Some ⟪"a.jpg"⟫)) ∧
  elems (callback load_image [(0, true); (0, false); (0, true)] (lazy_init sample_imgs)) !! 0 =
    Some (mk_img (Some ⟪"undefined"⟫) None).
Proof.
  split; [reflexivity|]. apply (lazy_duplicate_entry sample_imgs 0 None ⟪"a.jpg"⟫). reflexivity.
Defined.

Lemma fade_in_run_witness :
  rtc (step add_fade_in) (fade_init [∅; ∅]) (callback add_fade_in [(0, true); (0, false); (0, true)] (fade_init [∅; ∅])) ∧
  elems (callback add_fade_in [(0, true); (0, false); (0, true)] (fade_init [∅; ∅])) !! 0 = Some (fade_class ∅).
Proof.
  assert (rtc (step add_fade_in) (fade_init [∅; ∅])
            (callback add_fade_in [(0, true); (0, false); (0, true)] (fade_init [∅; ∅]))) as Hr.
  { apply rtc_once. constructor. apply (bool_decide_unpack _). vm_compute. reflexivity. }
  split; [exact Hr|]. rewrite (proj2 (fade_in_run _ _ Hr) 0). reflexivity.
Defined.


End Observers.
