(* ===== verification/Links.v ===== *)
(** * Internal links: smooth scrolling, the skip link and error logging
      (lines 238-256, 351-384, 407-410)

    The smooth-scroll handler (lines 239-256) runs on [DOMContentLoaded]
    and gives every [a[href^="#"]] present at that moment a click listener
    that calls [e.preventDefault()] and then passes the raw [href] to
    [document.querySelector] as a CSS selector, scrolling smoothly to the
    element found.  A selector that does not parse throws a [SyntaxError];
    the window's [error] listener (lines 408-410) logs it.

    The accessibility handler, registered later (line 338), inserts a skip
    link to [#main-content] as the first element of the body (lines
    352-377) and gives the first [.main-content] element the id
    [main-content] (lines 380-383).  The skip link was not there when the
    smooth-scroll handler ran, so a click on it takes the browser's default
    action: navigation to the fragment.

    The document is the list of the body's elements in tree order.  The
    CSS selector grammar is modelled on the selectors an [href] of the form
    ["#" ++ name] gives when [name] is made of CSS name code units (letters,
    digits, [-], [_], non-ASCII): such a selector is an id selector exactly
    when [name] starts an identifier, and is otherwise a syntax error.
    Other [href]s (with escapes, combinators or [%]-encoding) are outside
    the model, and [querySelector_id] returns [None] on them.  The handlers
    between the two (fade-in, video, date and phone inputs) create no links
    and set no ids. *)

From stdpp Require Import base list sets strings.
From S2P Require Import Prelude Validators.
Import Validators.

Module Links.

Record element := mk_el {
  tag : jsstr;
  id : option jsstr;
  classes : list jsstr;
  href : option jsstr;
  smooth_listener : bool;     (* the click listener of line 243 *)
  style_top : option jsstr     (* this.style.top *)
}.

(** ** CSS id selectors *)

Definition is_letter (c : N) : bool :=
  ((65 <=? c) && (c <=? 90) || (97 <=? c) && (c <=? 122))%N.

Definition is_name_start (c : N) : bool := is_letter c || (c =? 95)%N || (128 <=? c)%N.

Definition is_name_unit (c : N) : bool := is_name_start c || is_digit c || (c =? 45)%N.

(** CSS Syntax, "check if three code points would start an ident
    sequence", on a name of name units. *)
Definition starts_ident (name : jsstr) : bool :=
  match name with
  | c1 :: rest =>
      if (c1 =? 45)%N then
        match rest with c2 :: _ => is_name_start c2 || (c2 =? 45)%N | [] => false end
      else is_name_start c1
  | [] => false
  end.

Inductive query := Found (k : nat) | NotFound | SyntaxError.

(** The first element in tree order with the given id. *)
Definition first_with_id (els : list element) (name : jsstr) : option nat :=
  fst <$> list_find (λ el, id el = Some name) els.

Definition first_with_class (els : list element) (cls : jsstr) : option nat :=
  fst <$> list_find (λ el, cls ∈ classes el) els.

(** [document.querySelector(sel)] for [sel = "#" ++ name], [name] of name
    units. *)
Definition querySelector_id (els : list element) (sel : jsstr) : option query :=
  match sel with
  | c :: name =>
      if (c =? 35)%N && forallb is_name_unit name then
        Some (if starts_ident name
              then match first_with_id els name with Some k => Found k | None => NotFound end
              else SyntaxError)
      else None
  | [] => None
  end.

(** ** Clicks on internal links *)

Inductive scroll := Smooth (k : nat) | Jump (k : nat) | JumpTop.

Record outcome := mk_outcome {
  default_prevented : bool;
  scrolled : option scroll;
  error : option jsstr        (* the exception thrown by the listener *)
}.

(** Lines 243-253. *)
Definition smooth_click (els : list element) (h : jsstr) : option outcome :=
  match querySelector_id els h with
  | Some (Found k) => Some (mk_outcome true (Some (Smooth k)) None)
  | Some NotFound => Some (mk_outcome true None None)
  | Some SyntaxError => Some (mk_outcome true None (Some ⟪"SyntaxError"⟫))
  | None => None
  end.

(** The browser's default action on a link ["#" ++ f] (HTML, "find a
    potential indicated element" and "the indicated part of the
    document"): the top for an empty fragment, else the first element with
    id [f], else the top when [f] is ["top"] in any case, else nothing. *)
Definition default_nav (els : list element) (h : jsstr) : option outcome :=
  match h with
  | c :: f =>
      if (c =? 35)%N && forallb is_name_unit f then
        Some (mk_outcome false
          (match f with
           | [] => Some JumpTop
           | _ => match first_with_id els f with
                  | Some k => Some (Jump k)
                  | None => if bool_decide (toLowerCase f = ⟪"top"⟫) then Some JumpTop else None
                  end
           end) None)
      else None
  | [] => None
  end.

(** A click on the element [k]: its listener if it has one, else the
    default action. *)
Definition click_link (els : list element) (k : nat) : option outcome :=
  el ← els !! k;
  h ← href el;
  if smooth_listener el then smooth_click els h else default_nav els h.

(** Lines 408-410: [console.error('JavaScript error:', e.error)]. *)
Definition on_error (console : list (jsstr * jsstr)) (o : outcome) : list (jsstr * jsstr) :=
  match error o with
  | Some e => console ++ [(⟪"JavaScript error:"⟫, e)]
  | None => console
  end.

(** ** The [DOMContentLoaded] handlers *)

(** [a[href^="#"]]. *)
Definition is_internal_link (el : element) : bool :=
  bool_decide (tag el = ⟪"a"⟫) && default false (starts_with ⟪"#"⟫ <$> href el).

Definition with_listener (el : element) : element :=
  mk_el (tag el) (id el) (classes el) (href el) true (style_top el).

(** Lines 240-255. *)
Definition smooth_init (els : list element) : list element :=
  (λ el, if is_internal_link el then with_listener el else el) <$> els.

(** Lines 352-367: the skip link, with the [top] of its [cssText]. *)
Definition skipLink : element :=
  mk_el ⟪"a"⟫ None [⟪"skip-link"⟫] (Some ⟪"#main-content"⟫) false (Some ⟪"-40px"⟫).

(** Line 377: [document.body.insertBefore(skipLink, document.body.firstChild)]. *)
Definition add_skip_link (els : list element) : list element := skipLink :: els.

Definition with_id (name : jsstr) (el : element) : element :=
  mk_el (tag el) (Some name) (classes el) (href el) (smooth_listener el) (style_top el).

(** Lines 380-383. *)
Definition set_main_content_id (els : list element) : list element :=
  match first_with_class els ⟪"main-content"⟫ with
  | Some k => alter (with_id ⟪"main-content"⟫) k els
  | None => els
  end.

(** The handlers that touch links and ids, in registration order. *)
Definition dom_ready (els : list element) : list element :=
  set_main_content_id (add_skip_link (smooth_init els)).

(** Lines 369-375: the skip link's [focus] and [blur] listeners. *)
Inductive focus_event := Focus | Blur.

Definition skip_focus_event (el : element) (ev : focus_event) : element :=
  mk_el (tag el) (id el) (classes el) (href el) (smooth_listener el)
    (Some (match ev with Focus => ⟪"0"⟫ | Blur => ⟪"-40px"⟫ end)).

(** ** Lemmas *)

Lemma first_with_id_Some (els : list element) (name : jsstr) (k : nat) :
  first_with_id els name = Some k ↔
  (∃ el, els !! k = Some el ∧ id el = Some name) ∧
  ∀ j el, els !! j = Some el → j < k → id el ≠ Some name.
Proof.
  unfold first_with_id. rewrite fmap_Some. split.
  - intros ([k' el] & (? & ? & ?)%list_find_Some & ->). naive_solver.
  - intros ((el & ? & ?) & ?). exists (k, el). by rewrite list_find_Some.
Qed.

Lemma first_with_id_None (els : list element) (name : jsstr) :
  first_with_id els name = None ↔ Forall (λ el, id el ≠ Some name) els.
Proof. unfold first_with_id. by rewrite fmap_None, list_find_None. Qed.

Lemma first_with_class_cons (el : element) (els : list element) (cls : jsstr) :
  first_with_class (el :: els) cls =
    if decide (cls ∈ classes el) then Some 0 else S <$> first_with_class els cls.
Proof.
  unfold first_with_class; simpl. case_decide; [done|].
  by destruct (list_find _ els).
Qed.

(** The smooth-scroll listeners change no id. *)
Lemma smooth_init_lookup (els : list element) (j : nat) (el : element) :
  els !! j = Some el →
  ∃ el', smooth_init els !! j = Some el' ∧ id el' = id el ∧ href el' = href el ∧
         classes el' = classes el ∧ smooth_listener el' = is_internal_link el || smooth_listener el.
Proof.
  intros Hj. unfold smooth_init. rewrite list_lookup_fmap, Hj; simpl.
  eexists; split; [done|]. by destruct (is_internal_link el).
Qed.

Lemma first_with_class_smooth_init (els : list element) (cls : jsstr) :
  first_with_class (smooth_init els) cls = first_with_class els cls.
Proof.
  unfold first_with_class, smooth_init. rewrite list_find_fmap.
  rewrite (list_find_ext _ (λ el, cls ∈ classes el)); [by destruct (list_find _ els)|].
  intros el. simpl. by destruct (is_internal_link el).
Qed.

Lemma first_with_id_smooth_init (els : list element) (name : jsstr) :
  first_with_id (smooth_init els) name = first_with_id els name.
Proof.
  unfold first_with_id, smooth_init. rewrite list_find_fmap.
  rewrite (list_find_ext _ (λ el, id el = Some name)); [by destruct (list_find _ els)|].
  intros el. simpl. by destruct (is_internal_link el).
Qed.

(** Giving an id to the element [k] when no element had it makes [k] the
    first with that id. *)
Lemma first_with_id_alter (els : list element) (name : jsstr) (k : nat) :
  first_with_id els name = None → k < length els →
  first_with_id (alter (with_id name) k els) name = Some k.
Proof.
  rewrite first_with_id_None, Forall_lookup. intros Hnone Hk.
  destruct (lookup_lt_is_Some_2 els k Hk) as [el Hel].
  apply first_with_id_Some. split.
  - exists (with_id name el). by rewrite list_lookup_alter_eq, Hel.
  - intros j el' Hj Hjk. rewrite list_lookup_alter_ne in Hj by lia. by apply (Hnone j).
Qed.

Lemma dom_ready_eq (els : list element) (k : nat) :
  first_with_class els ⟪"main-content"⟫ = Some k →
  dom_ready els = alter (with_id ⟪"main-content"⟫) (S k) (skipLink :: smooth_init els).
Proof.
  intros Hk. unfold dom_ready, set_main_content_id, add_skip_link.
  rewrite first_with_class_cons, decide_False by (simpl; set_solver).
  by rewrite first_with_class_smooth_init, Hk.
Qed.

Lemma is_name_unit_main_content :
  forallb is_name_unit ⟪"main-content"⟫ = true ∧ starts_ident ⟪"main-content"⟫ = true.
Proof. split; reflexivity. Qed.

(** A name that does not start an identifier is not ["top"] in any case. *)
Lemma not_ident_not_top (name : jsstr) :
  starts_ident name = false → toLowerCase name ≠ ⟪"top"⟫.
Proof.
  destruct name as [|c rest]; [done|]. unfold starts_ident, toLowerCase. intros Hs Heq.
  injection Heq as Hc _. unfold to_lower_unit, is_upper in Hc.
  unfold is_name_start, is_letter in Hs.
  destruct (N.eqb_spec c 45) as [->|Hne]; [simpl in Hc; lia|].
  repeat match goal with
  | H : context [(?a <=? ?b)%N] |- _ => destruct (N.leb_spec a b)
  | H : context [(?a =? ?b)%N] |- _ => destruct (N.eqb_spec a b)
  end; simpl in *; lia.
Qed.

Lemma querySelector_id_name (els : list element) (name : jsstr) :
  Forall (λ c, is_name_unit c = true) name →
  querySelector_id els (35%N :: name) =
    Some (if starts_ident name
          then match first_with_id els name with Some k => Found k | None => NotFound end
          else SyntaxError).
Proof. intros Hn. unfold querySelector_id. by rewrite (proj2 (forallb_Forall_iff _ _) Hn). Qed.

Lemma default_nav_name (els : list element) (name : jsstr) :
  Forall (λ c, is_name_unit c = true) name →
  default_nav els (35%N :: name) =
    Some (mk_outcome false
      (match name with
       | [] => Some JumpTop
       | _ => match first_with_id els name with
              | Some k => Some (Jump k)
              | None => if bool_decide (toLowerCase name = ⟪"top"⟫) then Some JumpTop else None
              end
       end) None).
Proof. intros Hn. unfold default_nav. by rewrite (proj2 (forallb_Forall_iff _ _) Hn). Qed.

Lemma click_link_lookup (els : list element) (k : nat) (el : element) (h : jsstr) :
  els !! k = Some el → href el = Some h →
  click_link els k = if smooth_listener el then smooth_click els h else default_nav els h.
Proof. intros Hk Hh. unfold click_link. rewrite Hk. simpl. by rewrite Hh. Qed.

Lemma dom_ready_head (els : list element) (k : nat) :
  first_with_class els ⟪"main-content"⟫ = Some k → dom_ready els !! 0 = Some skipLink.
Proof. intros Hk. by rewrite (dom_ready_eq _ _ Hk), list_lookup_alter_ne by lia. Qed.

(** The elements of the markup keep their [href] and listener, one place
    further. *)
Lemma dom_ready_lookup (els : list element) (k j : nat) (el : element) :
  first_with_class els ⟪"main-content"⟫ = Some k → els !! j = Some el →
  ∃ el', dom_ready els !! S j = Some el' ∧ href el' = href el ∧
         smooth_listener el' = is_internal_link el || smooth_listener el.
Proof.
  intros Hk Hj. destruct (smooth_init_lookup els j el Hj) as (el' & Hl & _ & Hh & _ & Hs).
  rewrite (dom_ready_eq _ _ Hk). destruct (decide (j = k)) as [->|Hne].
  - rewrite list_lookup_alter_eq; simpl. rewrite Hl. by eexists.
  - rewrite list_lookup_alter_ne by lia; simpl. by eexists.
Qed.

Lemma dom_ready_main_id (els : list element) (k : nat) :
  first_with_class els ⟪"main-content"⟫ = Some k → first_with_id els ⟪"main-content"⟫ = None →
  first_with_id (dom_ready els) ⟪"main-content"⟫ = Some (S k).
Proof.
  intros Hk Hnone. rewrite (dom_ready_eq _ _ Hk). apply first_with_id_alter.
  - apply first_with_id_None. constructor; [done|].
    apply first_with_id_None. by rewrite first_with_id_smooth_init.
  - unfold first_with_class in Hk. apply fmap_Some in Hk as ([k' el] & Hf & ->).
    apply list_find_Some in Hf as (Hl & _). apply lookup_lt_Some in Hl.
    unfold smooth_init. simpl. rewrite length_fmap. lia.
Qed.

(** ** Properties *)

(** C21: A click on an internal link [#name] that got the smooth-scroll
    listener always cancels the navigation; it throws exactly when [name]
    does not start a CSS identifier, and otherwise scrolls smoothly to the
    first element in tree order whose id is [name], if there is one. *)
Theorem smooth_click_spec (els : list element) (name : jsstr) :
  Forall (λ c, is_name_unit c = true) name →
  ∃ o, smooth_click els (35%N :: name) = Some o ∧ default_prevented o = true ∧
    (error o = None ↔ starts_ident name = true) ∧
    (scrolled o = None ∨ ∃ k, scrolled o = Some (Smooth k)) ∧
    ∀ k, scrolled o = Some (Smooth k) ↔
      starts_ident name = true ∧ (∃ el, els !! k = Some el ∧ id el = Some name) ∧
      ∀ j el, els !! j = Some el → j < k → id el ≠ Some name.
Proof.
  intros Hn. unfold smooth_click. rewrite querySelector_id_name by done.
  destruct (starts_ident name) eqn:Hs; [destruct (first_with_id els name) as [k0|] eqn:Hf|];
    (eexists; split; [done|]); simpl; (split; [done|]);
    (split; [naive_solver|]); (split; [naive_solver|]); intros k;
    rewrite <- first_with_id_Some, ?Hf; naive_solver.
Qed.

(** C22: On a link [#name] whose [name] does not start a CSS identifier
    ([href="#"], or an id that starts with a digit such as [#2024]), the
    smooth-scroll listener cancels the navigation and throws, so the link
    does nothing, while the browser alone would have gone to the top or to
    the element with that id. *)
Theorem internal_link_broken (els : list element) (name : jsstr) :
  Forall (λ c, is_name_unit c = true) name → starts_ident name = false →
  smooth_click els (35%N :: name) = Some (mk_outcome true None (Some ⟪"SyntaxError"⟫)) ∧
  default_nav els (35%N :: name) =
    Some (mk_outcome false (match name with [] => Some JumpTop | _ => Jump <$> first_with_id els name end) None).
Proof.
  intros Hn Hs. unfold smooth_click. rewrite querySelector_id_name, default_nav_name, Hs by done.
  split; [done|]. destruct name as [|c r]; [done|].
  destruct (first_with_id els (c :: r)); [done|].
  by rewrite bool_decide_false by (by apply not_ident_not_top).
Qed.

(** C27: After the page's [DOMContentLoaded] handlers, on a page with a
    [.main-content] element and no [#main-content] id in its markup, the
    skip link is the body's first element; a click on it has no listener
    and jumps to the main content without smooth scrolling, while any
    internal link of the markup to [#main-content] scrolls there smoothly. *)
Theorem skip_link_jumps (els : list element) (k : nat) :
  first_with_class els ⟪"main-content"⟫ = Some k →
  first_with_id els ⟪"main-content"⟫ = None →
  dom_ready els !! 0 = Some skipLink ∧
  click_link (dom_ready els) 0 = Some (mk_outcome false (Some (Jump (S k))) None) ∧
  ∀ j el, els !! j = Some el → is_internal_link el = true → href el = Some ⟪"#main-content"⟫ →
    click_link (dom_ready els) (S j) = Some (mk_outcome true (Some (Smooth (S k))) None).
Proof.
  intros Hk Hnone. pose proof (dom_ready_main_id els k Hk Hnone) as Hid.
  assert (Forall (λ c, is_name_unit c = true) ⟪"main-content"⟫) as Hn
    by (apply forallb_Forall_iff; reflexivity).
  split; [by apply (dom_ready_head _ k)|]. split.
  - rewrite (click_link_lookup _ 0 skipLink (35%N :: ⟪"main-content"⟫)) by
      (done || by apply (dom_ready_head _ k)).
    rewrite (default_nav_name _ _ Hn), Hid. reflexivity.
  - intros j el Hj Hint Hh. destruct (dom_ready_lookup els k j el Hk Hj) as (el' & Hl & Hh' & Hs).
    rewrite (click_link_lookup _ (S j) el' (35%N :: ⟪"main-content"⟫)) by (by rewrite ?Hh').
    rewrite Hs, Hint. unfold smooth_click. rewrite (querySelector_id_name _ _ Hn), Hid. reflexivity.
Qed.

(** ** Witnesses *)

Definition markup (t : jsstr) (i : option jsstr) (c : list jsstr) (h : option jsstr) : element :=
  mk_el t i c h false None.

(** A back-to-top link, a link to a year's section, that section, a link
    to the main content and the main content. *)
Definition sample_page : list element :=
  [markup ⟪"a"⟫ None [] (Some ⟪"#"⟫);
   markup ⟪"a"⟫ None [] (Some ⟪"#2024"⟫);
   markup ⟪"section"⟫ (Some ⟪"2024"⟫) [] None;
   markup ⟪"a"⟫ None [] (Some ⟪"#main-content"⟫);
   markup ⟪"main"⟫ None [⟪"main-content"⟫] None].

Lemma smooth_click_spec_witness :
  Forall (λ c, is_name_unit c = true) ⟪"main-content"⟫ ∧
  smooth_click (dom_ready sample_page) ⟪"#main-content"⟫ = Some (mk_outcome true (Some (Smooth 5)) None).
Proof.
  assert (Forall (λ c, is_name_unit c = true) ⟪"main-content"⟫) as Hn
    by (apply forallb_Forall_iff; reflexivity).
  split; [exact Hn|].
  destruct (smooth_click_spec (dom_ready sample_page) ⟪"main-content"⟫ Hn)
    as (o & Ho & Hp & He & [Hnone|[k Hk]] & Hs); change (35%N :: ⟪"main-content"⟫) with ⟪"#main-content"⟫ in Ho.
  - vm_compute in Ho. injection Ho as <-. discriminate.
  - rewrite Ho. vm_compute in Ho. injection Ho as <-. reflexivity.
Defined.

Lemma internal_link_broken_witness :
  Forall (λ c, is_name_unit c = true) ⟪"2024"⟫ ∧ starts_ident ⟪"2024"⟫ = false ∧
  smooth_click sample_page ⟪"#2024"⟫ = Some (mk_outcome true None (Some ⟪"SyntaxError"⟫)) ∧
  default_nav sample_page ⟪"#2024"⟫ = Some (mk_outcome false (Some (Jump 2)) None).
Proof.
  assert (Forall (λ c, is_name_unit c = true) ⟪"2024"⟫) as Hn
    by (apply forallb_Forall_iff; reflexivity).
  split; [exact Hn|]. split; [reflexivity|].
  exact (internal_link_broken sample_page ⟪"2024"⟫ Hn eq_refl).
Defined.

Lemma skip_link_jumps_witness :
  first_with_class sample_page ⟪"main-content"⟫ = Some 4 ∧
  first_with_id sample_page ⟪"main-content"⟫ = None ∧
  click_link (dom_ready sample_page) 0 = Some (mk_outcome false (Some (Jump 5)) None) ∧
  click_link (dom_ready sample_page) 4 = Some (mk_outcome true (Some (Smooth 5)) None).
Proof.
  split; [reflexivity|]. split; [reflexivity|].
  destruct (skip_link_jumps sample_page 4 eq_refl eq_refl) as (_ & H0 & H).
  split; [exact H0|]. by apply (H 3 (markup ⟪"a"⟫ None [] (Some ⟪"#main-content"⟫))).
Defined.

End Links.
