(* ===== verification/Video.v ===== *)
(** * The background video (lines 281-305)

    On [DOMContentLoaded], when [.video-background video] exists, the
    handler calls [video.play()] (a rejected promise is logged, lines
    287-289), blurs the video when the window is narrower than 768 px
    (lines 292-294) and registers a [resize] listener that sets the filter
    to [blur(2px)] or [none] from the new width (lines 297-303).  The
    video's state is its inline [filter] and the console log; widths are
    [Z] CSS pixels. *)

From Stdlib Require Import ZArith Lia.
From stdpp Require Import base list strings.
From S2P Require Import Prelude.

Module Video.

Record video := mk_video {
  filter : option jsstr;          (* video.style.filter, unset when None *)
  console : list jsstr
}.

Definition blur : jsstr := ⟪"blur(2px)"⟫.

(** Lines 298-302. *)
Definition on_resize (innerWidth : Z) (v : video) : video :=
  mk_video (Some (if (innerWidth <? 768)%Z then blur else ⟪"none"⟫)) (console v).

(** Lines 283-294, for a page with the video; [autoplay_allowed] is whether
    the [play()] promise resolves. *)
Definition video_init (autoplay_allowed : bool) (innerWidth : Z) : video :=
  mk_video (if (innerWidth <? 768)%Z then Some blur else None)
    (if autoplay_allowed then [] else [⟪"Video autoplay prevented:"⟫]).

(** The page's life: the width at load, then the width of every resize. *)
Definition run_video (autoplay_allowed : bool) (w0 : Z) (ws : list Z) : video :=
  fold_left (λ v w, on_resize w v) ws (video_init autoplay_allowed w0).

(** C29: The video is blurred exactly when the current window width is
    below 768 px; a wide window leaves the filter unset until the first
    resize, and [none] after it. *)
Theorem video_filter (a : bool) (w0 : Z) (ws : list Z) :
  filter (run_video a w0 ws) =
    if (List.last (w0 :: ws) w0 <? 768)%Z then Some blur
    else if ws is [] then None else Some ⟪"none"⟫.
Proof.
  unfold run_video. destruct ws as [|w ws _] using rev_ind.
  - simpl. by destruct (w0 <? 768)%Z.
  - rewrite fold_left_app, app_comm_cons, List.last_last. simpl.
    destruct (w <? 768)%Z; [done|]. by destruct ws.
Qed.

End Video.
