(* ===== verification/ServiceWorker.v ===== *)
(** * Service-worker registration (lines 412-423)

    When the script runs and [navigator] has [serviceWorker], it registers
    a [load] listener that calls [navigator.serviceWorker.register] and
    logs the promise's outcome.  The registration itself is the browser's;
    the model keeps whether the listener exists and the console lines it
    writes, with the promise's outcome as an input. *)

From stdpp Require Import base list strings.
From S2P Require Import Prelude.

Module ServiceWorker.

Record sw_page := mk_sw_page {
  load_listener : bool;         (* the listener of line 414 *)
  console : list jsstr
}.

(** Lines 413-414: the feature test, at script execution. *)
Definition script_run (serviceWorker_in_navigator : bool) : sw_page :=
  mk_sw_page serviceWorker_in_navigator [].

(** Lines 415-421: the [then] and [catch] branches of [register]. *)
Definition register_result (resolved : bool) : jsstr :=
  if resolved then ⟪"ServiceWorker registration successful"⟫
  else ⟪"ServiceWorker registration failed"⟫.

(** The window's [load] event, then the settlement of [register]. *)
Definition on_load (resolved : bool) (pg : sw_page) : sw_page :=
  if load_listener pg
  then mk_sw_page (load_listener pg) (console pg ++ [register_result resolved])
  else pg.

(** One line is logged, saying how the registration ended, exactly when
    the browser supports service workers. *)
Lemma service_worker_log (supported resolved : bool) :
  console (on_load resolved (script_run supported)) =
    if supported then [register_result resolved] else [].
Proof. by destruct supported. Qed.

End ServiceWorker.
